(** * crew_assets/tools.py: the asset tools, embedded and verified

    The five tools of [crew_assets/tools.py] are straight-line wrappers
    around an image library, an audio library, two media command-line
    utilities and git.  The embedding keeps the code of each tool as it
    is written and takes the external collaborators as a [World] of
    oracles; files written, appended to and removed are recorded in a
    trace, so that what a tool leaves on disk can be stated. *)

From Stdlib Require Import ZArith NArith List String Ascii Bool Lia.
From Equations Require Import Equations.
Import ListNotations.

Local Open Scope string_scope.
Local Open Scope Z_scope.

(** [evaluate r E]: the value of the closed term [r], as the equation [E]. *)
Ltac evaluate r E :=
  let v := eval vm_compute in r in
  assert (E : r = v) by (vm_compute; reflexivity).

(** ** The fragment of Python the tools use *)

Module Py.

(** Exceptions the tools raise or let through. *)
Inductive exn : Type :=
| ValueError (msg : string)
| ZeroDivisionError
| RuntimeError (msg : string) (cause : exn)
| CalledProcessError (output : string)
| DecodeError (path : string).

Inductive result (A : Type) : Type :=
| Ok (a : A)
| Raise (e : exn).
Arguments Ok {A} a.
Arguments Raise {A} e.

(** [len(s)] *)
Definition len (s : string) : Z := Z.of_nat (String.length s).

(** [s.rfind(c)]: the highest index of [c] in [s], or -1. *)
Fixpoint rfind (c : ascii) (s : string) : Z :=
  match s with
  | EmptyString => -1
  | String a r =>
      let i := rfind c r in
      if 0 <=? i then i + 1
      else if Ascii.eqb a c then 0 else -1
  end.

(** [s[:i]] and [s[i:]] for [0 <= i]. *)
Definition take (i : Z) (s : string) : string :=
  String.substring 0 (Z.to_nat i) s.

Definition drop (i : Z) (s : string) : string :=
  String.substring (Z.to_nat i) (String.length s - Z.to_nat i) s.

(** [s.split(sep)] for a one-character separator. *)
Fixpoint split (sep : ascii) (s : string) : list string :=
  match s with
  | EmptyString => [EmptyString]
  | String a r =>
      if Ascii.eqb a sep then EmptyString :: split sep r
      else match split sep r with
           | [] => [String a EmptyString]
           | h :: t => String a h :: t
           end
  end.

(** [s.startswith(p)] *)
Definition startswith (p s : string) : bool := String.prefix p s.

(** [c in s] for a character. *)
Fixpoint contains (c : ascii) (s : string) : bool :=
  match s with
  | EmptyString => false
  | String a r => Ascii.eqb a c || contains c r
  end.

(** [s.upper()] and [s.lower()] on ASCII letters. *)
Definition upper_char (a : ascii) : ascii :=
  let n := nat_of_ascii a in
  if ((97 <=? n) && (n <=? 122))%nat then ascii_of_nat (n - 32) else a.

Definition lower_char (a : ascii) : ascii :=
  let n := nat_of_ascii a in
  if ((65 <=? n) && (n <=? 90))%nat then ascii_of_nat (n + 32) else a.

Fixpoint map_chars (f : ascii -> ascii) (s : string) : string :=
  match s with
  | EmptyString => EmptyString
  | String a r => String (f a) (map_chars f r)
  end.

Definition upper : string -> string := map_chars upper_char.
Definition lower : string -> string := map_chars lower_char.

(** [s.strip()]: leading and trailing ASCII white space removed. *)
Definition is_space (a : ascii) : bool :=
  let n := nat_of_ascii a in
  ((n =? 32) || ((9 <=? n) && (n <=? 13)) || ((28 <=? n) && (n <=? 31)))%nat.

Fixpoint lstrip (s : string) : string :=
  match s with
  | EmptyString => EmptyString
  | String a r => if is_space a then lstrip r else s
  end.

Fixpoint rstrip (s : string) : string :=
  match s with
  | EmptyString => EmptyString
  | String a r =>
      match rstrip r with
      | EmptyString => if is_space a then EmptyString else String a EmptyString
      | r' => String a r'
      end
  end.

Definition strip (s : string) : string := rstrip (lstrip s).

(** [int(a / b)]: the quotient truncated toward zero.  Python divides
    the two integers into a double and truncates it; below 2^52 the
    truncated double is the truncated exact quotient, which is what
    [Z.quot] gives. *)
Definition int_div (a b : Z) : Z := Z.quot a b.

(** [round(a / b)] for [0 < b]: to the nearest integer, ties to the
    even one. *)
Definition round_div (a b : Z) : Z :=
  let q := a / b in
  let r := a mod b in
  if 2 * r <? b then q
  else if b <? 2 * r then q + 1
  else if Z.even q then q else q + 1.

(** ['%032x' % n]: [digits] lowercase hexadecimal digits, most
    significant first. *)
Definition hex_digit (d : N) : ascii :=
  if (d <? 10)%N then ascii_of_N (48 + d) else ascii_of_N (87 + d).

Fixpoint hex (digits : nat) (n : N) (acc : string) : string :=
  match digits with
  | O => acc
  | S k => hex k (n / 16)%N (String (hex_digit (n mod 16)%N) acc)
  end.

(** A [dict] keeps its keys in insertion order; assigning to a key
    already present replaces the value where it stands. *)
Section Dict.
Context {V : Type}.

Definition dict : Type := list (string * V).

Fixpoint setitem (d : dict) (k : string) (v : V) : dict :=
  match d with
  | [] => [(k, v)]
  | (k', v') :: rest =>
      if String.eqb k' k then (k', v) :: rest
      else (k', v') :: setitem rest k v
  end.

Fixpoint getitem (d : dict) (k : string) : option V :=
  match d with
  | [] => None
  | (k', v') :: rest => if String.eqb k' k then Some v' else getitem rest k
  end.

End Dict.
Arguments dict V : clear implicits.

End Py.

(** ** [pathlib] on POSIX, as far as the tools use it *)

Module pathlib.
Import Py.

(** A path is its root (empty, one slash, or the two slashes POSIX
    keeps apart) and its components. *)
Record Path : Type := mkPath { root : string; parts : list string }.

Definition is_part (c : string) : bool :=
  negb (String.eqb c "") && negb (String.eqb c ".").

Fixpoint leading_slashes (s : string) : nat :=
  match s with
  | String a r => if Ascii.eqb a "/" then S (leading_slashes r) else O
  | EmptyString => O
  end.

Definition parse_root (s : string) : string :=
  match leading_slashes s with
  | O => ""
  | 2%nat => "//"
  | _ => "/"
  end.

(** [Path(s)]: empty components and single dots are dropped. *)
Definition parse (s : string) : Path :=
  {| root := parse_root s; parts := filter is_part (split "/" s) |}.

(** [str(p)] and [p.as_posix()] *)
Definition as_posix (p : Path) : string :=
  match root p, parts p with
  | "", [] => "."
  | r, ps => r ++ String.concat "/" ps
  end.

(** [p / s] *)
Definition joinpath (p : Path) (s : string) : Path :=
  let q := parse s in
  match root q with
  | "" => {| root := root p; parts := parts p ++ parts q |}
  | _ => q
  end.

(** [p.name] *)
Definition name (p : Path) : string := last (parts p) "".

(** [p.stem] and [p.suffix] *)
Definition stem (p : Path) : string :=
  let n := name p in
  let i := rfind "." n in
  if (0 <? i) && (i <? len n - 1) then take i n else n.

Definition suffix (p : Path) : string :=
  let n := name p in
  let i := rfind "." n in
  if (0 <? i) && (i <? len n - 1) then drop i n else "".

(** [p.parent] *)
Definition parent (p : Path) : Path :=
  {| root := root p; parts := removelast (parts p) |}.

(** [p.with_suffix(suffix)] *)
Definition with_suffix (p : Path) (sfx : string) : result Path :=
  if contains "/" sfx
     || (negb (String.eqb sfx "") && negb (startswith "." sfx))
     || String.eqb sfx "."
  then Raise (ValueError ("Invalid suffix " ++ sfx))
  else if String.eqb (name p) ""
  then Raise (ValueError (as_posix p ++ " has an empty name"))
  else Ok {| root := root p;
             parts := removelast (parts p) ++ [stem p ++ sfx] |}.

(** The file [s] lies directly in the directory [d]. *)
Definition in_dir (d : Path) (s : string) : Prop :=
  parent (parse s) = d /\ name (parse s) <> "".

(** A component [Path] keeps as it is: no slash, not empty, not a
    single dot. *)
Definition clean (n : string) : Prop :=
  contains "/" n = false /\ is_part n = true.

End pathlib.

(** ** The external collaborators and the effects of a tool *)

(** What [subprocess] reports of a finished child: its captured
    standard output, and whether its exit status was zero. *)
Inductive proc : Type :=
| Exit0 (stdout : string)
| NonZero (stdout : string).

(** The libraries and programs the tools call, as oracles.  [float] is
    the type of Python floats with the operations the tools apply to
    them; nothing is assumed of its arithmetic here.  The two laws say
    that the decoders read files: a path without a final component
    (the empty path, [.], [/]) is a directory and opens as neither an
    image nor a sound. *)
Class World : Type := {
  float : Type;
  fzero : float;
  fadd : float -> float -> float;
  fsub : float -> float -> float;
  fle : float -> float -> Prop;
  (** [float(s)]; [None] stands for its [ValueError]. *)
  float_of_str : string -> option float;
  (** [Image.open(path).convert("RGBA")]; [None] is a decode error. *)
  Image : Type;
  Image_open : string -> option Image;
  Image_size : Image -> Z * Z;
  Image_open_file : forall p im,
    Image_open p = Some im -> pathlib.name (pathlib.parse p) <> "";
  (** [st_size] of the file [im.save(_, format=fmt, quality=q)] leaves. *)
  encoded_size : Image -> string -> Z -> Z;
  (** [pydub.AudioSegment] and the methods used of it. *)
  AudioSegment : Type;
  from_file : string -> option AudioSegment;
  from_file_file : forall p sound,
    from_file p = Some sound -> pathlib.name (pathlib.parse p) <> "";
  dBFS : AudioSegment -> float;
  apply_gain : AudioSegment -> float -> AudioSegment;
  strip_silence : AudioSegment -> Z -> Z -> AudioSegment;
  (** [uuid.uuid4().int] *)
  uuid4 : N;
  (** A child process run to completion, by its argument vector. *)
  subprocess : list string -> proc
}.

Section Effects.
Context `{World}.
Import Py.

(** [ImageOps.fit(src, size, LANCZOS)]: a crop of [src] resampled to
    exactly [size]. *)
Record Fitted : Type := mkFitted { fit_src : Image; fit_size : Z * Z }.

Definition width (v : Fitted) : Z := fst (fit_size v).
Definition height (v : Fitted) : Z := snd (fit_size v).

(** What a written file holds. *)
Inductive content : Type :=
| PngImage (v : Fitted)
| CodedImage (im : Image) (fmt : string) (quality : Z)
| CodedAudio (sound : AudioSegment) (fmt bitrate : string)
| Text (t : string)
| SpriteAudio (clips : list string)
| Json (cue_map : dict (float * float)).

(** What a tool does to the world, in order. *)
Inductive event : Type :=
| Write (path : string) (c : content)
| Append (path : string) (text : string)
| Unlink (path : string)
| Run (argv : list string).

(** A computation that may raise and that extends the trace. *)
Definition M (A : Type) : Type := list event -> result A * list event.

Definition ret {A} (a : A) : M A := fun tr => (Ok a, tr).

Definition raise {A} (e : exn) : M A := fun tr => (Raise e, tr).

Definition bind {A B} (c : M A) (k : A -> M B) : M B :=
  fun tr =>
    match c tr with
    | (Ok a, tr') => k a tr'
    | (Raise e, tr') => (Raise e, tr')
    end.

Definition lift {A} (r : result A) : M A := fun tr => (r, tr).

Definition emit (e : event) : M unit := fun tr => (Ok tt, (tr ++ [e])%list).

(** [try: body  except <handled> as e: handler(e)]: [handles e] is
    [None] when the [except] clause does not match [e]. *)
Definition try_except {A} (body : M A) (handles : exn -> option (M A)) : M A :=
  fun tr =>
    match body tr with
    | (Ok a, tr') => (Ok a, tr')
    | (Raise e, tr') =>
        match handles e with
        | Some handler => handler tr'
        | None => (Raise e, tr')
        end
    end.

Definition except_CalledProcessError {A} (h : string -> M A) (e : exn) : option (M A) :=
  match e with
  | CalledProcessError output => Some (h output)
  | _ => None
  end.

Definition except_Exception {A} (h : exn -> M A) (e : exn) : option (M A) :=
  Some (h e).

(** [subprocess.check_output(argv, text=True)] and
    [subprocess.check_call(argv)] *)
Definition check_output (argv : list string) : M string :=
  fun tr =>
    match subprocess argv with
    | Exit0 out => (Ok out, (tr ++ [Run argv])%list)
    | NonZero out => (Raise (CalledProcessError out), (tr ++ [Run argv])%list)
    end.

Definition check_call (argv : list string) : M unit :=
  bind (check_output argv) (fun _ => ret tt).

(** [float(s)] *)
Definition float_ (s : string) : M float :=
  match float_of_str s with
  | Some x => ret x
  | None => raise (ValueError ("could not convert string to float: " ++ s))
  end.

(** The paths a trace creates or writes to. *)
Definition written (tr : list event) : list string :=
  flat_map (fun e => match e with
                     | Write p _ => [p]
                     | Append p _ => [p]
                     | _ => []
                     end) tr.

End Effects.

Notation "x <- c ;; k" := (bind c (fun x => k))
  (at level 61, c at next level, right associativity).
Notation "c ;;; k" := (bind c (fun _ => k))
  (at level 61, right associativity).

(** ** Directories *)

Definition ASSET_DIR : pathlib.Path := pathlib.parse "assets".
Definition IMG_DIR : pathlib.Path := pathlib.joinpath ASSET_DIR "images".
Definition AUD_DIR : pathlib.Path := pathlib.joinpath ASSET_DIR "audio".

(** ** Image tools *)

Module ImageResponsiveTool.
Import Py pathlib.
Section Tool.
Context `{World}.

Definition variants : list (string * (Z * Z)) :=
  [("169", (16, 9)); ("32", (3, 2)); ("11", (1, 1))].

(** [ImageOps.fit]: the output ratio is [size[0] / size[1]], and an
    image has positive sides. *)
Definition ImageOps_fit (src : Image) (size : Z * Z) : M Fitted :=
  let (w, h) := size in
  if h =? 0 then raise ZeroDivisionError
  else if (w <=? 0) || (h <? 0)
  then raise (ValueError "height and width must be > 0")
  else ret {| fit_src := src; fit_size := size |}.

(** The body of [for key, (w_ratio, h_ratio) in variants.items()]. *)
Fixpoint for_variants (src : Image) (png_path : string) (max_width : Z)
    (vs : list (string * (Z * Z))) (out_paths : list string) : M (list string) :=
  match vs with
  | [] => ret out_paths
  | (key, (w_ratio, h_ratio)) :: rest =>
      let target_w := max_width in
      let target_h := int_div (target_w * h_ratio) w_ratio in
      variant <- ImageOps_fit src (target_w, target_h) ;;
      let out_name :=
        as_posix (joinpath IMG_DIR (stem (parse png_path) ++ "_" ++ key ++ ".png")) in
      emit (Write out_name (PngImage variant)) ;;;
      for_variants src png_path max_width rest (out_paths ++ [out_name])%list
  end.

Definition _run (png_path : string) (max_width : Z) : M (list string) :=
  match Image_open png_path with
  | None => raise (DecodeError png_path)
  | Some src => for_variants src png_path max_width variants []
  end.
End Tool.
End ImageResponsiveTool.

Module ImageCompressTool.
Import Py pathlib.
Section Tool.
Context `{World}.

(** [while quality >= 10: ...], on the trace. *)
Equations? while_quality (im : Image) (fmt out_file : string) (target_size_kb : Z)
    (quality : Z) (tr : list event) : list event by wf (Z.to_nat quality) lt :=
  while_quality im fmt out_file target_size_kb quality tr
    with Z_le_gt_dec 10 quality := {
    | left _ =>
        let tr' := (tr ++ [Write out_file (CodedImage im fmt quality)])%list in
        let size_kb := encoded_size im fmt quality / 1024 in
        if size_kb <=? target_size_kb then tr'
        else while_quality im fmt out_file target_size_kb (quality - 10) tr'
    | right _ => tr }.
Proof. lia. Qed.

Definition _run (png_path fmt : string) (target_size_kb : Z) : M string :=
  let fmt := upper fmt in
  if negb (String.eqb fmt "AVIF" || String.eqb fmt "WEBP")
  then raise (ValueError "fmt must be 'AVIF' or 'WEBP'")
  else
    match Image_open png_path with
    | None => raise (DecodeError png_path)
    | Some im =>
        let quality := 80 in
        out_file <- lift (with_suffix (parse png_path) ("." ++ lower fmt)) ;;
        (fun tr => (Ok tt,
           while_quality im fmt (as_posix out_file) target_size_kb quality tr)) ;;;
        ret (as_posix out_file)
    end.
End Tool.
End ImageCompressTool.

(** ** Audio tools *)

Module AudioNormalizeTool.
Import Py pathlib.
Section Tool.
Context `{World}.

Definition _run (wav_or_mp3_path : string) (target_lufs : float) : M string :=
  match from_file wav_or_mp3_path with
  | None => raise (DecodeError wav_or_mp3_path)
  | Some sound =>
      let change_needed := fsub target_lufs (dBFS sound) in
      let sound := apply_gain sound change_needed in
      let sound := strip_silence sound 200 (-40) in
      let out_base := joinpath AUD_DIR (stem (parse wav_or_mp3_path)) in
      let ogg_path := as_posix out_base ++ ".ogg" in
      let mp3_path := as_posix out_base ++ ".mp3" in
      emit (Write ogg_path (CodedAudio sound "ogg" "96k")) ;;;
      emit (Write mp3_path (CodedAudio sound "mp3" "128k")) ;;;
      ret ogg_path
  end.
End Tool.
End AudioNormalizeTool.

Module AudioSpriteTool.
Import Py pathlib.
Section Tool.
Context `{World}.

Definition newline : string := String (ascii_of_nat 10) "".

Definition ffprobe_argv (p : string) : list string :=
  ["ffprobe"; "-v"; "error"; "-show_entries"; "format=duration";
   "-of"; "default=nw=1:nk=1"; p].

Definition ffmpeg_argv (concat_txt sprite_path : string) : list string :=
  ["ffmpeg"; "-y"; "-f"; "concat"; "-safe"; "0"; "-i"; concat_txt;
   "-c:a"; "libvorbis"; sprite_path].

(** The [try] around the probe: any failure becomes a
    [RuntimeError] naming the clip. *)
Definition probe (p : string) : M float :=
  try_except
    (out <- check_output (ffprobe_argv p) ;; float_ (strip out))
    (except_Exception (fun exc =>
       raise (RuntimeError ("ffprobe failed for " ++ p ++ ": ") exc))).

(** The body of [for p in paths], on [cue_map] and [cursor]. *)
Fixpoint for_paths (concat_txt : string) (paths : list string)
    (cue_map : dict (float * float)) (cursor : float)
    : M (dict (float * float) * float) :=
  match paths with
  | [] => ret (cue_map, cursor)
  | p :: rest =>
      emit (Append concat_txt ("file '" ++ p ++ "'" ++ newline)) ;;;
      dur <- probe p ;;
      let cue_map := setitem cue_map (stem (parse p)) (cursor, dur) in
      let cursor := fadd cursor dur in
      for_paths concat_txt rest cue_map cursor
  end.

Definition too_few : string := "Need ≥2 clips to create a sprite sheet.".

Definition _run (paths : list string) : M string :=
  if Z.of_nat (List.length paths) <? 2
  then raise (ValueError too_few)
  else
    let sprite_id := hex 32 uuid4 "" in
    let concat_txt := as_posix (joinpath AUD_DIR (sprite_id ++ ".txt")) in
    let cue_map := [] in
    let cursor := fzero in
    emit (Write concat_txt (Text "")) ;;;
    st <- for_paths concat_txt paths cue_map cursor ;;
    let cue_map := fst st in
    let sprite_path := joinpath AUD_DIR (sprite_id ++ ".ogg") in
    check_call (ffmpeg_argv concat_txt (as_posix sprite_path)) ;;;
    emit (Write (as_posix sprite_path) (SpriteAudio paths)) ;;;
    emit (Unlink concat_txt) ;;;
    json_path <- lift (with_suffix sprite_path ".json") ;;
    emit (Write (as_posix json_path) (Json cue_map)) ;;;
    ret (as_posix sprite_path).
End Tool.
End AudioSpriteTool.

(** ** Git helper *)

Module GitOpsTool.
Import Py.
Section Tool.
Context `{World}.

Definition _git (args : list string) : M string :=
  check_output ("git" :: args).

Definition pushed : string := "Committed & pushed.".
Definition committed_locally : string := "Committed locally (no remote/push failed).".

Definition _run (commit_message : string) : M string :=
  try_except
    (_git ["add"; "."] ;;;
     _git ["commit"; "-m"; commit_message] ;;;
     try_except
       (_git ["push"] ;;; ret pushed)
       (except_CalledProcessError (fun _ => ret committed_locally)))
    (except_CalledProcessError (fun output =>
       ret ("Git error: " ++ strip output))).
End Tool.
End GitOpsTool.

(** ** Vocabulary of the properties *)

Section Properties.
Context `{World}.
Import Py pathlib.

(** *** Image Responsive Generator *)

(** The trace holds one PNG per ratio, in the order of [variants],
    no wider than [max_width] and as high as [rounding] of
    [width * ratio_h / ratio_w]. *)
Definition variants_sized (rounding : Z -> Z -> Z) (max_width : Z)
    (tr : list event) : Prop :=
  Forall2 (fun (kv : string * (Z * Z)) (e : event) =>
             exists path v,
               e = Write path (PngImage v) /\
               width v <= max_width /\
               height v = rounding (width v * snd (snd kv)) (fst (snd kv)))
          ImageResponsiveTool.variants tr.

(** The file of the variant [key] of a source. *)
Definition variant_name (png_path key : string) : string :=
  "assets/images/" ++ stem (parse png_path) ++ "_" ++ key ++ ".png".

(** Every call that returns has produced variants whose heights are
    rounded to the nearest integer. *)
Definition responsive_rounded (png_path : string) (max_width : Z) : Prop :=
  forall out tr,
    ImageResponsiveTool._run png_path max_width [] = (Ok out, tr) ->
    variants_sized round_div max_width tr.

(** *** Image Compressor *)

Definition qualities : list Z := [80; 70; 60; 50; 40; 30; 20; 10].

(** The size the loop compares with the budget. *)
Definition size_kb (im : Image) (fmt : string) (quality : Z) : Z :=
  encoded_size im fmt quality / 1024.

(** The qualities tried out of [qs]: up to and with the first that
    fits. *)
Fixpoint attempts (fits : Z -> bool) (qs : list Z) : list Z :=
  match qs with
  | [] => []
  | q :: rest => if fits q then [q] else q :: attempts fits rest
  end.

(** [qs] counts down from [q] by tens and ends where the loop does. *)
Fixpoint descending (q : Z) (qs : list Z) : Prop :=
  match qs with
  | [] => q < 10
  | x :: rest => x = q /\ 10 <= q /\ descending (q - 10) rest
  end.

(** The file the call leaves at [out] holds at most
    [1024 * target_size_kb] bytes, unless it is the encoding at
    quality 10. *)
Definition budget_kept (png_path fmt : string) (target_size_kb : Z) : Prop :=
  forall out tr im f q,
    ImageCompressTool._run png_path fmt target_size_kb [] = (Ok out, tr) ->
    last tr (Unlink out) = Write out (CodedImage im f q) ->
    encoded_size im f q <= 1024 * target_size_kb \/ q = 10.

(** *** Audio Sprite Builder *)

(** The duration the probe yields for a clip, if it yields one. *)
Definition probed (p : string) : option float :=
  match subprocess (AudioSpriteTool.ffprobe_argv p) with
  | Exit0 out => float_of_str (strip out)
  | NonZero _ => None
  end.

(** The loop of the builder on keys and durations alone. *)
Fixpoint fill (clips : list (string * float)) (cue_map : dict (float * float))
    (cursor : float) : dict (float * float) * float :=
  match clips with
  | [] => (cue_map, cursor)
  | (k, dur) :: rest => fill rest (setitem cue_map k (cursor, dur)) (fadd cursor dur)
  end.

(** One entry per clip, back to back from [cursor]. *)
Fixpoint layout (clips : list (string * float)) (cursor : float)
    : dict (float * float) :=
  match clips with
  | [] => []
  | (k, dur) :: rest => (k, (cursor, dur)) :: layout rest (fadd cursor dur)
  end.







(** The files of one sprite share the directory and the identifier. *)
Definition sprite_file (ext : string) : string :=
  "assets/audio/" ++ hex 32 uuid4 "" ++ ext.

(** While the clips are probed the builder only appends to the
    concat list and runs the probe. *)
Definition probing (e : event) : Prop :=
  (exists text, e = Append (sprite_file ".txt") text) \/ (exists argv, e = Run argv).

(** The keys and durations the loop sees. *)
Definition clips_of (paths : list string) (durs : list float) : list (string * float) :=
  combine (map (fun p => stem (parse p)) paths) durs.


(** *** Output directories *)

Definition in_fixed_dirs (tr : list event) : Prop :=
  Forall (fun f => in_dir IMG_DIR f \/ in_dir AUD_DIR f) (written tr).

End Properties.

(** ** A small world to run the tools in

    Floats are integers, every path with a final component decodes,
    an encoding at quality [q] takes [sizes q] bytes and a child
    process does what [run] says. *)

Module Demo.
Import Py pathlib.

Fixpoint decimal (s : string) (acc : Z) : option Z :=
  match s with
  | EmptyString => Some acc
  | String a r =>
      let n := nat_of_ascii a in
      if ((48 <=? n) && (n <=? 57))%nat
      then decimal r (10 * acc + Z.of_nat (n - 48))
      else None
  end.

Definition parse_float (s : string) : option Z :=
  if String.eqb s "" then None else decimal s 0.

Definition open_ (p : string) : option unit :=
  if String.eqb (name (parse p)) "" then None else Some tt.

Definition load (p : string) : option Z :=
  if String.eqb (name (parse p)) "" then None else Some (-20).

Definition world (sizes : Z -> Z) (run : list string -> proc) : World.
Proof.
  refine {| float := Z; fzero := 0; fadd := Z.add; fsub := Z.sub; fle := Z.le;
            float_of_str := parse_float;
            Image := unit; Image_open := open_; Image_size := fun _ => (640, 480);
            encoded_size := fun _ _ q => sizes q;
            AudioSegment := Z; from_file := load;
            dBFS := fun s => s; apply_gain := Z.add;
            strip_silence := fun s _ _ => s;
            uuid4 := 255%N; subprocess := run |}.
  - intros p im; unfold open_.
    destruct (String.eqb_spec (name (parse p)) ""); [discriminate | auto].
  - intros p s; unfold load.
    destruct (String.eqb_spec (name (parse p)) ""); [discriminate | auto].
Defined.

(** Three clips of 1, 2 and 3 seconds; [ffmpeg] succeeds. *)
Definition seconds (out : string) : proc := Exit0 (out ++ AudioSpriteTool.newline).

Definition probes (table : list (string * string)) (argv : list string) : proc :=
  match argv with
  | "ffprobe" :: _ =>
      match getitem table (last argv "") with
      | Some out => seconds out
      | None => NonZero ""
      end
  | _ => Exit0 ""
  end.

(** [git] with the given outcome per subcommand. *)
Definition git (add commit push : proc) (argv : list string) : proc :=
  match argv with
  | "git" :: "add" :: _ => add
  | "git" :: "commit" :: _ => commit
  | "git" :: "push" :: _ => push
  | _ => NonZero ""
  end.

Definition quiet (argv : list string) : proc := Exit0 "".

(** Every encoding takes 204801 bytes, one more than 200 KB. *)
Definition studio : World := world (fun _ => 204801) quiet.

(** An encoding at quality [q] takes [5000 * q] bytes. *)
Definition darkroom : World := world (fun q => 5000 * q) quiet.

(** Four clips of 1, 2, 3 and 4 seconds, two of them named [x]. *)
Definition booth : World :=
  world (fun _ => 0)
    (probes [("a/x.wav", "1"); ("b/y.wav", "2"); ("c/x.wav", "3"); ("d/z.wav", "4")]).

(** A repository where staging and commit succeed and the push
    fails, and one where the commit fails. *)
Definition no_remote : World :=
  world (fun _ => 0) (git (Exit0 "") (Exit0 "[main 1a2b3c4] asset-update") (NonZero "")).

Definition trio : list string := ["a/x.wav"; "b/y.wav"; "d/z.wav"].
Definition sprite_ogg : string := "assets/audio/000000000000000000000000000000ff.ogg".
Definition sprite_json : string := "assets/audio/000000000000000000000000000000ff.json".

Definition nothing_to_commit : World :=
  world (fun _ => 0)
    (git (Exit0 "") (NonZero ("nothing to commit, working tree clean" ++ AudioSpriteTool.newline))
       (Exit0 "")).

End Demo.

(** ** Floats with their special values

    A world whose floats have a NaN and the two infinities beside the
    finite values, with the sums and the order Python gives them, to
    run the sprite builder on durations of any sign. *)

Module Floats.
Import Py pathlib.

Inductive xfloat : Type :=
| NaN
| NegInf
| PosInf
| Finite (z : Z).

Definition add (x y : xfloat) : xfloat :=
  match x, y with
  | NaN, _ => NaN
  | _, NaN => NaN
  | PosInf, NegInf => NaN
  | NegInf, PosInf => NaN
  | PosInf, _ => PosInf
  | _, PosInf => PosInf
  | NegInf, _ => NegInf
  | _, NegInf => NegInf
  | Finite a, Finite b => Finite (a + b)
  end.

Definition neg (x : xfloat) : xfloat :=
  match x with
  | NaN => NaN
  | NegInf => PosInf
  | PosInf => NegInf
  | Finite a => Finite (- a)
  end.

Definition sub (x y : xfloat) : xfloat := add x (neg y).

(** [x <= y]: false as soon as one side is NaN. *)
Definition leb (x y : xfloat) : bool :=
  match x, y with
  | NaN, _ => false
  | _, NaN => false
  | NegInf, _ => true
  | _, PosInf => true
  | Finite a, Finite b => a <=? b
  | _, _ => false
  end.

(** [float(s)] on [nan], [inf], [-inf] and signed decimal integers. *)
Definition of_str (s : string) : option xfloat :=
  if String.eqb s "nan" then Some NaN
  else if String.eqb s "inf" then Some PosInf
  else if String.eqb s "-inf" then Some NegInf
  else match s with
       | String "-" r => option_map (fun n => Finite (- n)) (Demo.parse_float r)
       | _ => option_map Finite (Demo.parse_float s)
       end.

Definition gain (s : Z) (g : xfloat) : Z :=
  match g with
  | Finite a => s + a
  | _ => s
  end.

Definition world (run : list string -> proc) : World.
Proof.
  refine {| float := xfloat; fzero := Finite 0; fadd := add; fsub := sub;
            fle := fun x y => leb x y = true;
            float_of_str := of_str;
            Image := unit; Image_open := Demo.open_; Image_size := fun _ => (640, 480);
            encoded_size := fun _ _ _ => 0;
            AudioSegment := Z; from_file := Demo.load;
            dBFS := Finite; apply_gain := gain;
            strip_silence := fun s _ _ => s;
            uuid4 := 255%N; subprocess := run |}.
  - intros p im; unfold Demo.open_.
    destruct (String.eqb_spec (name (parse p)) ""); [discriminate | auto].
  - intros p s; unfold Demo.load.
    destruct (String.eqb_spec (name (parse p)) ""); [discriminate | auto].
Defined.

Definition clips : list string := ["a.wav"; "b.wav"; "c.wav"].



End Floats.

(** ** A child process as the operating system reports it *)

Module Shell.

Record completed : Type := mkCompleted {
  returncode : Z;
  stdout : string;
  stderr : string
}.

(** What [check_output(argv, text=True)] keeps of it: the standard
    output, returned on status zero and carried by the
    [CalledProcessError] otherwise.  No [stderr=] is passed, so the
    standard error goes to the parent's and is not captured. *)
Definition captured (c : completed) : proc :=
  if returncode c =? 0 then Exit0 (stdout c) else NonZero (stdout c).

(** [git] outside a repository: every command exits with status 128
    and prints its message ([fatal: not a git repository ...]) on the
    standard error, nothing on the standard output. *)
Definition not_a_repository (message : string) (argv : list string) : completed :=
  {| returncode := 128; stdout := ""; stderr := message |}.

Definition outside_repository (message : string) : World :=
  Demo.world (fun _ => 0) (fun argv => captured (not_a_repository message argv)).

End Shell.

(** ** What a trace leaves behind *)

Section Observations.
Context `{World}.
Import Py pathlib.

(** The files a trace has created and not removed, oldest first. *)
Definition touch (files : list string) (p : string) : list string :=
  if existsb (String.eqb p) files then files else (files ++ [p])%list.

Definition after_event (files : list string) (e : event) : list string :=
  match e with
  | Write p _ => touch files p
  | Append p _ => touch files p
  | Unlink p => filter (fun f => negb (String.eqb f p)) files
  | Run _ => files
  end.

Definition leftover (tr : list event) : list string :=
  fold_left after_event tr [].

(** The texts appended to [path], and the processes run, in order. *)
Definition appended (path : string) (tr : list event) : list string :=
  flat_map (fun e => match e with
                     | Append p text => if String.eqb p path then [text] else []
                     | _ => []
                     end) tr.

Definition runs (tr : list event) : list (list string) :=
  flat_map (fun e => match e with
                     | Run argv => [argv]
                     | _ => []
                     end) tr.

(** What the sprite builder's loop does for one clip: a line of the
    concat list, then the probe. *)
Definition concat_line (p : string) : string :=
  "file '" ++ p ++ "'" ++ AudioSpriteTool.newline.

Definition probe_steps (txt p : string) : list event :=
  [Append txt (concat_line p); Run (AudioSpriteTool.ffprobe_argv p)].

(** The encodings a call of the compressor makes under a budget. *)
Definition encodings (im : Image) (fmt : string) (target_size_kb : Z) : list Z :=
  attempts (fun q => size_kb im fmt q <=? target_size_kb) qualities.

End Observations.

(** ** [crew_assets/tasks.py]: the task factory *)

Module tasks.

(** [crewai.Task], as far as the factory fills it. *)
Record Task (Agent : Type) : Type := mkTask {
  description : string;
  agent : Agent;
  expected_output : string
}.
Arguments mkTask {Agent} _ _ _.
Arguments description {Agent} _.
Arguments agent {Agent} _.
Arguments expected_output {Agent} _.

Definition default_output : string :=
  "Path(s) to generated asset(s) or confirmation log.".

(** [x or y] on an optional string: [None] and the empty string are
    false. *)
Definition or_else (x : option string) (y : string) : string :=
  match x with
  | Some (String a r) => String a r
  | _ => y
  end.

Definition T {Agent : Type} (desc : string) (agent : Agent) (output : option string)
    : Task Agent :=
  {| description := desc;
     agent := agent;
     expected_output := or_else output default_output |}.

End tasks.

(** ** Strings and paths *)

Module StringFacts.
Import Py.

Lemma append_assoc (a b c : string) : (a ++ b) ++ c = a ++ (b ++ c).
Proof. induction a as [|x a IH]; simpl; [reflexivity | now rewrite IH]. Qed.

Lemma length_append (a b : string) :
  String.length (a ++ b) = (String.length a + String.length b)%nat.
Proof. induction a as [|x a IH]; simpl; [reflexivity | now rewrite IH]. Qed.

Lemma contains_append c (a b : string) :
  contains c (a ++ b) = contains c a || contains c b.
Proof.
  induction a as [|x a IH]; simpl; [reflexivity |].
  now rewrite IH, orb_assoc.
Qed.

Lemma contains_substring c (s : string) :
  contains c s = false -> forall i n, contains c (String.substring i n s) = false.
Proof.
  induction s as [|x s IH]; intros Hs i n.
  - destruct i, n; reflexivity.
  - simpl in Hs. apply orb_false_iff in Hs as [Hx Hs].
    destruct i as [|i]; destruct n as [|n]; simpl; auto.
    rewrite Hx; simpl; auto.
Qed.

Lemma split_not_nil sep (s : string) : split sep s <> [].
Proof.
  destruct s as [|x s]; simpl; [discriminate |].
  destruct (Ascii.eqb x sep); [discriminate |].
  destruct (split sep s); discriminate.
Qed.

Lemma split_without sep (s : string) :
  contains sep s = false -> split sep s = [s].
Proof.
  induction s as [|x s IH]; simpl; intros Hs; [reflexivity |].
  apply orb_false_iff in Hs as [Hx Hs].
  now rewrite Hx, (IH Hs).
Qed.

Lemma split_at_first sep (a b : string) :
  contains sep a = false ->
  split sep (a ++ String sep b) = a :: split sep b.
Proof.
  induction a as [|x a IH]; simpl; intros Ha.
  - now rewrite Ascii.eqb_refl.
  - apply orb_false_iff in Ha as [Hx Ha].
    now rewrite Hx, (IH Ha).
Qed.

Lemma split_pieces sep (s x : string) :
  In x (split sep s) -> contains sep x = false.
Proof.
  revert x; induction s as [|a s IH]; simpl; intros x Hx.
  - destruct Hx as [<- | []]; reflexivity.
  - destruct (Ascii.eqb a sep) eqn:Ea.
    + destruct Hx as [<- | Hx]; [reflexivity | auto].
    + pose proof (split_not_nil sep s) as Hne.
      destruct (split sep s) as [|h t]; [congruence |].
      destruct Hx as [<- | Hx].
      * simpl. rewrite Ea. apply IH. now left.
      * apply IH. now right.
Qed.

Lemma hex_digit_plain (d : N) : (d < 16)%N ->
  Ascii.eqb (hex_digit d) "/" = false.
Proof.
  intros Hd.
  assert (Hall : forallb (fun k => negb (Ascii.eqb (hex_digit (N.of_nat k)) "/"))
                   (seq 0 16) = true) by (vm_compute; reflexivity).
  rewrite forallb_forall in Hall.
  specialize (Hall (N.to_nat d)).
  rewrite N2Nat.id in Hall.
  apply negb_true_iff, Hall, in_seq. lia.
Qed.

Lemma hex_without_slash (k : nat) : forall n acc,
  contains "/" acc = false -> contains "/" (hex k n acc) = false.
Proof.
  induction k as [|k IH]; intros n acc Hacc; simpl; [assumption |].
  apply IH. simpl. rewrite Hacc, orb_false_r.
  apply hex_digit_plain, N.mod_lt. discriminate.
Qed.

End StringFacts.

Module PathFacts.
Import Py pathlib StringFacts.

Lemma is_part_long (s : string) : (2 <= String.length s)%nat -> is_part s = true.
Proof.
  destruct s as [|a [|b s]]; simpl; try lia. intros _.
  unfold is_part; simpl. destruct (Ascii.eqb a "."); reflexivity.
Qed.

Lemma clean_append (a b : string) :
  contains "/" a = false -> contains "/" b = false ->
  (2 <= String.length b)%nat -> clean (a ++ b).
Proof.
  intros Ha Hb Hlen; split.
  - now rewrite contains_append, Ha, Hb.
  - apply is_part_long. rewrite length_append. lia.
Qed.

Lemma parse_root_relative (s : string) :
  contains "/" s = false -> parse_root s = "".
Proof.
  destruct s as [|a s]; [reflexivity |]. simpl.
  intros Hs. apply orb_false_iff in Hs as [Ha _].
  unfold parse_root; simpl. now rewrite Ha.
Qed.

Lemma parse_clean (n : string) : clean n -> parse n = {| root := ""; parts := [n] |}.
Proof.
  intros [Hs Hp]. unfold parse.
  rewrite (parse_root_relative _ Hs), (split_without _ _ Hs).
  simpl. now rewrite Hp.
Qed.

Lemma joinpath_clean (d : Path) (n : string) :
  clean n -> joinpath d n = {| root := root d; parts := parts d ++ [n] |}.
Proof. intros Hn. unfold joinpath. now rewrite (parse_clean _ Hn). Qed.

(** A file directly below [assets/<sub>]. *)
Lemma parse_below (sub n : string) :
  clean sub -> clean n ->
  parse ("assets/" ++ sub ++ "/" ++ n) = {| root := ""; parts := ["assets"; sub; n] |}.
Proof.
  intros [Hs Hsp] [Hn Hnp]. unfold parse. f_equal.
  change ("assets/" ++ sub ++ "/" ++ n)
    with ("assets" ++ String "/" (sub ++ String "/" n)).
  rewrite split_at_first by reflexivity.
  rewrite split_at_first by assumption.
  rewrite (split_without _ _ Hn).
  simpl. now rewrite Hsp, Hnp.
Qed.

Lemma name_of_clean (n : string) : clean n -> n <> "".
Proof. intros [_ Hp] ->. discriminate Hp. Qed.

Lemma in_IMG_DIR (n : string) : clean n -> in_dir IMG_DIR ("assets/images/" ++ n).
Proof.
  intros Hn. unfold in_dir.
  change ("assets/images/" ++ n) with ("assets/" ++ "images" ++ "/" ++ n).
  rewrite parse_below by (assumption || (split; reflexivity)).
  split; [reflexivity | simpl; now apply name_of_clean].
Qed.

Lemma in_AUD_DIR (n : string) : clean n -> in_dir AUD_DIR ("assets/audio/" ++ n).
Proof.
  intros Hn. unfold in_dir.
  change ("assets/audio/" ++ n) with ("assets/" ++ "audio" ++ "/" ++ n).
  rewrite parse_below by (assumption || (split; reflexivity)).
  split; [reflexivity | simpl; now apply name_of_clean].
Qed.

Lemma as_posix_IMG_DIR (n : string) :
  clean n -> as_posix (joinpath IMG_DIR n) = "assets/images/" ++ n.
Proof. intros Hn. now rewrite joinpath_clean. Qed.

Lemma as_posix_AUD_DIR (n : string) :
  clean n -> as_posix (joinpath AUD_DIR n) = "assets/audio/" ++ n.
Proof. intros Hn. now rewrite joinpath_clean. Qed.

(** Names, stems and suffixes *)

Lemma name_without_slash (s : string) : contains "/" (name (parse s)) = false.
Proof.
  unfold name, parse; simpl.
  assert (Hall : forall x, In x (filter is_part (split "/" s)) -> contains "/" x = false).
  { intros x Hx. apply filter_In in Hx as [Hx _]. eapply split_pieces; eauto. }
  induction (filter is_part (split "/" s)) as [|x l IH]; [reflexivity |].
  destruct l as [|y l]; [apply Hall; now left |].
  change (last (x :: y :: l) "") with (last (y :: l) "").
  apply IH. intros z Hz. apply Hall. now right.
Qed.

Lemma stem_without_slash (p : Path) :
  contains "/" (name p) = false -> contains "/" (stem p) = false.
Proof.
  intros Hn. unfold stem.
  destruct ((0 <? rfind "." (name p)) && (rfind "." (name p) <? len (name p) - 1));
    [| assumption].
  now apply contains_substring.
Qed.

Lemma as_posix_parts (p : Path) :
  parts p <> [] -> as_posix p = root p ++ String.concat "/" (parts p).
Proof.
  unfold as_posix. destruct (root p); destruct (parts p); congruence.
Qed.

Lemma concat_ends (l : list string) (x : string) :
  exists pre, String.concat "/" (l ++ [x]) = pre ++ x.
Proof.
  induction l as [|y l [pre IH]]; simpl.
  - now exists "".
  - destruct (l ++ [x])%list eqn:E; [now destruct l |].
    exists (y ++ "/" ++ pre). rewrite IH.
    now rewrite !append_assoc.
Qed.

End PathFacts.

(** ** Image Responsive Generator *)

Section Responsive.
Context `{World}.
Import Py pathlib PathFacts StringFacts.

Lemma variant_name_clean (png_path key : string) :
  contains "/" key = false ->
  clean (stem (parse png_path) ++ "_" ++ key ++ ".png").
Proof.
  intros Hk. apply clean_append.
  - apply stem_without_slash, name_without_slash.
  - simpl. rewrite contains_append, Hk. reflexivity.
  - simpl. rewrite length_append. simpl. lia.
Qed.

Lemma out_name_eq (png_path key : string) :
  contains "/" key = false ->
  as_posix (joinpath IMG_DIR (stem (parse png_path) ++ "_" ++ key ++ ".png"))
  = variant_name png_path key.
Proof.
  intros Hk. now rewrite as_posix_IMG_DIR by now apply variant_name_clean.
Qed.

Lemma fit_cases (src : Image) (w h : Z) (tr : list event) :
  (0 < w /\ 0 < h /\
   ImageResponsiveTool.ImageOps_fit src (w, h) tr
   = (Ok {| fit_src := src; fit_size := (w, h) |}, tr))
  \/ ((w <= 0 \/ h <= 0) /\
      exists e, ImageResponsiveTool.ImageOps_fit src (w, h) tr = (Raise e, tr)).
Proof.
  unfold ImageResponsiveTool.ImageOps_fit.
  destruct (Z.eqb_spec h 0) as [-> | Hh].
  - right. split; [lia | eexists; reflexivity].
  - destruct (Z.leb_spec w 0); simpl.
    + right. split; [lia | eexists; reflexivity].
    + destruct (Z.ltb_spec h 0); simpl.
      * right. split; [lia | eexists; reflexivity].
      * left. repeat split; lia.
Qed.

(** What a call that returns has done. *)
Lemma responsive_run (png_path : string) (max_width : Z) out tr :
  ImageResponsiveTool._run png_path max_width [] = (Ok out, tr) ->
  exists src,
    Image_open png_path = Some src /\
    0 < max_width /\ 0 < int_div (max_width * 9) 16 /\
    out = map (variant_name png_path) ["169"; "32"; "11"] /\
    tr = map (fun kv : string * (Z * Z) =>
                Write (variant_name png_path (fst kv))
                  (PngImage {| fit_src := src;
                               fit_size := (max_width,
                                 int_div (max_width * snd (snd kv)) (fst (snd kv))) |}))
             ImageResponsiveTool.variants.
Proof.
  unfold ImageResponsiveTool._run.
  destruct (Image_open png_path) as [src|] eqn:Hopen; [| discriminate].
  unfold ImageResponsiveTool.variants, ImageResponsiveTool.for_variants, bind.
  rewrite !out_name_eq by reflexivity.
  destruct (fit_cases src max_width (int_div (max_width * 9) 16) [])
    as [(Hw & Hh & ->) | (_ & e & ->)]; [| discriminate].
  unfold emit at 1.
  match goal with
  | |- context [ImageResponsiveTool.ImageOps_fit src (?w, ?h) ?t] =>
      destruct (fit_cases src w h t) as [(_ & _ & ->) | (_ & e & ->)]; [| discriminate]
  end.
  unfold emit at 1.
  match goal with
  | |- context [ImageResponsiveTool.ImageOps_fit src (?w, ?h) ?t] =>
      destruct (fit_cases src w h t) as [(_ & _ & ->) | (_ & e & ->)]; [| discriminate]
  end.
  unfold emit, ret. simpl. intros [= <- <-].
  exists src. repeat split; assumption.
Qed.

(** With a width of two pixels or more every variant has positive
    sides, and the call returns. *)
Lemma responsive_returns (png_path : string) (max_width : Z) src :
  Image_open png_path = Some src -> 2 <= max_width ->
  exists out tr, ImageResponsiveTool._run png_path max_width [] = (Ok out, tr).
Proof.
  intros Hopen Hw.
  unfold ImageResponsiveTool._run. rewrite Hopen.
  unfold ImageResponsiveTool.variants, ImageResponsiveTool.for_variants, bind.
  assert (H169 : 0 < int_div (max_width * 9) 16).
  { unfold int_div. apply Z.quot_str_pos. lia. }
  assert (H32 : 0 < int_div (max_width * 2) 3).
  { unfold int_div. apply Z.quot_str_pos. lia. }
  assert (H11 : 0 < int_div (max_width * 1) 1).
  { unfold int_div. rewrite Z.quot_1_r. lia. }
  destruct (fit_cases src max_width (int_div (max_width * 9) 16) [])
    as [(_ & _ & ->) | (Hbad & _)]; [| lia].
  unfold emit at 1.
  match goal with
  | |- context [ImageResponsiveTool.ImageOps_fit src (?w, ?h) ?t] =>
      destruct (fit_cases src w h t) as [(_ & _ & ->) | (Hbad & _)]; [| lia]
  end.
  unfold emit at 1.
  match goal with
  | |- context [ImageResponsiveTool.ImageOps_fit src (?w, ?h) ?t] =>
      destruct (fit_cases src w h t) as [(_ & _ & ->) | (Hbad & _)]; [| lia]
  end.
  unfold emit, ret. simpl. eauto.
Qed.

End Responsive.

(** ** Image Compressor *)

Section Compress.
Context `{World}.
Import Py pathlib PathFacts StringFacts.

Lemma while_quality_step (im : Image) (fmt out : string) (target q : Z) tr :
  ImageCompressTool.while_quality im fmt out target q tr
  = if 10 <=? q
    then if size_kb im fmt q <=? target
         then (tr ++ [Write out (CodedImage im fmt q)])%list
         else ImageCompressTool.while_quality im fmt out target (q - 10)
                (tr ++ [Write out (CodedImage im fmt q)])
    else tr.
Proof.
  rewrite ImageCompressTool.while_quality_equation_1.
  destruct (Z_le_gt_dec 10 q) as [Hq | Hq]; simpl.
  - destruct (Z.leb_spec 10 q); [reflexivity | lia].
  - destruct (Z.leb_spec 10 q); [lia | reflexivity].
Qed.

(** The loop from [q] tries the qualities [q], [q - 10], ... in turn. *)
Lemma while_quality_descending (im : Image) (fmt out : string) (target : Z) :
  forall qs q tr, descending q qs ->
    ImageCompressTool.while_quality im fmt out target q tr
    = (tr ++ map (fun q => Write out (CodedImage im fmt q))
               (attempts (fun q => size_kb im fmt q <=? target) qs))%list.
Proof.
  induction qs as [|x qs IH]; intros q tr Hd; rewrite while_quality_step; simpl in Hd.
  - destruct (Z.leb_spec 10 q); [lia |]. simpl. now rewrite app_nil_r.
  - destruct Hd as (-> & Hq & Hd).
    destruct (Z.leb_spec 10 q); [| lia]. simpl.
    destruct (size_kb im fmt q <=? target); [reflexivity |].
    rewrite (IH _ _ Hd), <- app_assoc. reflexivity.
Qed.

Lemma qualities_descending : descending 80 qualities.
Proof. simpl. repeat split; lia. Qed.

(** The attempts: a beginning of the list, never empty, all but the
    last too large, the last fitting or the last of the list. *)
Lemma attempts_shape (fits : Z -> bool) : forall qs, qs <> [] ->
  exists front q rest,
    attempts fits qs = (front ++ [q])%list /\
    qs = (front ++ q :: rest)%list /\
    Forall (fun x => fits x = false) front /\
    (fits q = true \/ (fits q = false /\ rest = [])).
Proof.
  induction qs as [|x qs IH]; intros Hne; [congruence |]. simpl.
  destruct (fits x) eqn:Hx.
  - exists [], x, qs. repeat split; auto.
  - destruct qs as [|y qs].
    + exists [], x, []. repeat split; auto.
    + destruct IH as (front & q & rest & Ha & Hq & Hf & Hl); [discriminate |].
      exists (x :: front), q, rest. rewrite Ha, Hq. repeat split; auto.
Qed.

Lemma size_kb_le (im : Image) (fmt : string) (q target : Z) :
  size_kb im fmt q <= target <-> encoded_size im fmt q < 1024 * (target + 1).
Proof.
  unfold size_kb. split; intros Hle; Z.div_mod_to_equations; lia.
Qed.

(** A supported format is one that [upper] sends to one of the two
    names the tool accepts. *)
Lemma supported_suffix (fmt : string) :
  upper fmt = "AVIF" \/ upper fmt = "WEBP" ->
  let sfx := "." ++ lower (upper fmt) in
  (sfx = ".avif" \/ sfx = ".webp") /\
  forall p, name p <> "" ->
    with_suffix p sfx
    = Ok {| root := root p; parts := removelast (parts p) ++ [stem p ++ sfx] |}.
Proof.
  intros [-> | ->]; simpl; (split; [auto |]); intros p Hn; unfold with_suffix; simpl;
    destruct (String.eqb_spec (name p) ""); congruence.
Qed.

(** What a call on a decodable image in a supported format does. *)
Lemma compress_run (png_path fmt : string) (target : Z) (im : Image) :
  upper fmt = "AVIF" \/ upper fmt = "WEBP" ->
  Image_open png_path = Some im ->
  exists out_file out,
    with_suffix (parse png_path) ("." ++ lower (upper fmt)) = Ok out_file /\
    out = as_posix out_file /\
    ImageCompressTool._run png_path fmt target []
    = (Ok out, map (fun q => Write out (CodedImage im (upper fmt) q))
                 (attempts (fun q => size_kb im (upper fmt) q <=? target) qualities))
    /\ exists pre, out = pre ++ "." ++ lower (upper fmt).
Proof.
  intros Hfmt Hopen.
  pose proof (Image_open_file _ _ Hopen) as Hname.
  destruct (supported_suffix fmt Hfmt) as [_ Hsfx].
  specialize (Hsfx (parse png_path) Hname). cbv zeta in Hsfx.
  unfold ImageCompressTool._run.
  replace (negb ((upper fmt =? "AVIF")%string || (upper fmt =? "WEBP")%string)) with false
    by (destruct Hfmt as [-> | ->]; reflexivity).
  rewrite Hopen. unfold bind, lift, ret. rewrite Hsfx.
  rewrite (while_quality_descending _ _ _ _ _ _ _ qualities_descending).
  rewrite app_nil_l. do 2 eexists. split; [reflexivity |].
  split; [reflexivity |]. split; [reflexivity |].
  rewrite as_posix_parts
    by (cbn [parts]; intros E; apply app_eq_nil in E as [_ E]; discriminate E).
  cbn [root parts].
  destruct (concat_ends (removelast (parts (parse png_path)))
              (stem (parse png_path) ++ "." ++ lower (upper fmt))) as [pre ->].
  exists (root (parse png_path) ++ pre ++ stem (parse png_path)).
  now rewrite !append_assoc.
Qed.

End Compress.

(** ** Dictionaries and the cue map *)

Module DictFacts.
Import Py.
Section Dict.
Context {V : Type}.
Implicit Types (d : dict V) (k : string) (v : V).




End Dict.
End DictFacts.

Section CueMap.
Context `{World}.
Import Py DictFacts.





Lemma layout_durations : forall clips cursor k o d,
  In (k, (o, d)) (layout clips cursor) -> In (k, d) clips.
Proof.
  induction clips as [|[k0 d0] clips IH]; intros cursor k o d; simpl; [tauto |].
  intros [[= <- <- <-] | Hin]; [now left | right; eauto].
Qed.




End CueMap.

(** ** Audio Sprite Builder *)

Section Sprite.
Context `{World}.
Import Py pathlib PathFacts StringFacts DictFacts.

Lemma rfind_absent c (s : string) : contains c s = false -> rfind c s = -1.
Proof.
  induction s as [|a s IH]; simpl; intros Hs; [reflexivity |].
  apply orb_false_iff in Hs as [Ha Hs]. rewrite (IH Hs), Ha. reflexivity.
Qed.

Lemma rfind_last c (a b : string) :
  contains c b = false -> rfind c (a ++ String c b) = len a.
Proof.
  intros Hb. induction a as [|x a IH]; simpl.
  - rewrite (rfind_absent _ _ Hb), Ascii.eqb_refl. reflexivity.
  - rewrite IH. unfold len. simpl String.length.
    destruct (Z.leb_spec 0 (Z.of_nat (String.length a))); lia.
Qed.

Lemma take_append (a b : string) : take (len a) (a ++ b) = a.
Proof.
  unfold take, len. rewrite Nat2Z.id.
  induction a as [|x a IH]; simpl.
  - destruct b; reflexivity.
  - now rewrite IH.
Qed.

Lemma stem_ogg (r : string) (l : list string) (a : string) :
  a <> "" -> stem {| root := r; parts := l ++ [a ++ ".ogg"] |} = a.
Proof.
  intros Ha. unfold stem, name. cbn [parts]. rewrite last_last.
  change (a ++ ".ogg") with (a ++ String "." "ogg").
  rewrite rfind_last by reflexivity.
  assert (Hlen : len (a ++ ".ogg") = len a + 4)
    by (unfold len; rewrite length_append; simpl; lia).
  assert (Hpos : 0 < len a)
    by (destruct a; [congruence | unfold len; simpl; lia]).
  rewrite Hlen.
  destruct (Z.ltb_spec 0 (len a)); [| lia].
  destruct (Z.ltb_spec (len a) (len a + 4 - 1)); [| lia].
  apply take_append.
Qed.

Lemma hex_length (k : nat) : forall n acc,
  String.length (hex k n acc) = (k + String.length acc)%nat.
Proof.
  induction k as [|k IH]; intros n acc; simpl; [reflexivity |].
  rewrite IH. simpl. lia.
Qed.

Lemma sprite_id_plain :
  contains "/" (hex 32 uuid4 "") = false /\ hex 32 uuid4 "" <> "".
Proof.
  split; [now apply hex_without_slash |].
  intros E. pose proof (hex_length 32 uuid4 "") as Hl. rewrite E in Hl. discriminate Hl.
Qed.

Lemma sprite_name_clean (ext : string) :
  contains "/" ext = false -> (2 <= String.length ext)%nat ->
  clean (hex 32 uuid4 "" ++ ext).
Proof. intros He Hl. apply clean_append; auto. apply sprite_id_plain. Qed.

Lemma sprite_file_in_AUD_DIR (ext : string) :
  contains "/" ext = false -> (2 <= String.length ext)%nat ->
  in_dir AUD_DIR (sprite_file ext).
Proof. intros He Hl. apply in_AUD_DIR. now apply sprite_name_clean. Qed.

Lemma probe_spec (p : string) tr :
  (exists d, probed p = Some d /\
     AudioSpriteTool.probe p tr
     = (Ok d, tr ++ [Run (AudioSpriteTool.ffprobe_argv p)])%list)
  \/ (probed p = None /\ exists e,
        AudioSpriteTool.probe p tr
        = (Raise (RuntimeError ("ffprobe failed for " ++ p ++ ": ") e),
           tr ++ [Run (AudioSpriteTool.ffprobe_argv p)])%list).
Proof.
  unfold AudioSpriteTool.probe, try_except, bind, check_output, probed, float_.
  destruct (subprocess (AudioSpriteTool.ffprobe_argv p)) as [out | out].
  - destruct (float_of_str (strip out)) as [d |].
    + left. exists d. split; reflexivity.
    + right. split; [reflexivity |]. eexists. reflexivity.
  - right. split; [reflexivity |]. eexists. reflexivity.
Qed.

Lemma for_paths_cons (txt p : string) paths cue cursor tr :
  AudioSpriteTool.for_paths txt (p :: paths) cue cursor tr
  = match AudioSpriteTool.probe p
            (tr ++ [Append txt ("file '" ++ p ++ "'" ++ AudioSpriteTool.newline)])%list with
    | (Ok dur, tr') =>
        AudioSpriteTool.for_paths txt paths
          (setitem cue (stem (parse p)) (cursor, dur)) (fadd cursor dur) tr'
    | (Raise e, tr') => (Raise e, tr')
    end.
Proof. reflexivity. Qed.

(** The loop over the clips: it fails with the probe's
    [RuntimeError], or every clip has a duration and the cue map is
    [fill]'s. *)
Lemma for_paths_spec : forall paths cue cursor tr,
  exists ext, Forall probing ext /\
    ((exists msg e,
        AudioSpriteTool.for_paths (sprite_file ".txt") paths cue cursor tr
        = (Raise (RuntimeError msg e), tr ++ ext)%list)
     \/ (exists durs,
           Forall2 (fun p d => probed p = Some d) paths durs /\
           AudioSpriteTool.for_paths (sprite_file ".txt") paths cue cursor tr
           = (Ok (fill (clips_of paths durs) cue cursor), tr ++ ext)%list)).
Proof.
  induction paths as [|p paths IH]; intros cue cursor tr.
  - exists []. split; [constructor |]. right. exists []. split; [constructor |].
    simpl. unfold ret. now rewrite app_nil_r.
  - rewrite for_paths_cons.
    set (appended := Append (sprite_file ".txt")
                       ("file '" ++ p ++ "'" ++ AudioSpriteTool.newline)).
    assert (Happ : probing appended) by (left; eexists; reflexivity).
    assert (Hrun : probing (Run (AudioSpriteTool.ffprobe_argv p)))
      by (right; eexists; reflexivity).
    destruct (probe_spec p (tr ++ [appended])) as [(d & Hd & ->) | (_ & e & ->)].
    + destruct (IH (setitem cue (stem (parse p)) (cursor, d)) (fadd cursor d)
                  ((tr ++ [appended]) ++ [Run (AudioSpriteTool.ffprobe_argv p)])%list)
        as (ext & Hext & Hcases).
      exists (appended :: Run (AudioSpriteTool.ffprobe_argv p) :: ext).
      split; [constructor; [assumption |]; constructor; assumption |].
      replace (tr ++ appended :: Run (AudioSpriteTool.ffprobe_argv p) :: ext)%list
        with (((tr ++ [appended]) ++ [Run (AudioSpriteTool.ffprobe_argv p)]) ++ ext)%list
        by (now rewrite <- !app_assoc).
      destruct Hcases as [(msg & e & ->) | (durs & Hdurs & ->)].
      * left. eauto.
      * right. exists (d :: durs). split; [constructor; assumption | reflexivity].
    + exists [appended; Run (AudioSpriteTool.ffprobe_argv p)].
      split; [constructor; [assumption |]; constructor; [assumption | constructor] |].
      left. do 2 eexists. now rewrite <- app_assoc.
Qed.

Lemma json_beside_sprite (a : string) :
  a <> "" ->
  with_suffix {| root := ""; parts := ["assets"; "audio"; a ++ ".ogg"] |} ".json"
  = Ok {| root := ""; parts := ["assets"; "audio"; a ++ ".json"] |}.
Proof.
  intros Ha. unfold with_suffix.
  change (contains "/" ".json" || negb (".json" =? "")%string && negb (startswith "." ".json")
          || (".json" =? ".")%string) with false.
  cbv iota.
  pose proof (stem_ogg "" ["assets"; "audio"] a Ha) as Hstem.
  cbn [app] in Hstem. rewrite Hstem.
  unfold name. cbn [parts last removelast app root].
  destruct (String.eqb_spec (a ++ ".ogg") "") as [E | _]; [| reflexivity].
  destruct a; discriminate E.
Qed.

(** The call on two clips or more, step by step. *)
Lemma sprite_run_eq (paths : list string) :
  (2 <= List.length paths)%nat ->
  AudioSpriteTool._run paths []
  = match AudioSpriteTool.for_paths (sprite_file ".txt") paths [] fzero
            [Write (sprite_file ".txt") (Text "")] with
    | (Raise e, tr) => (Raise e, tr)
    | (Ok st, tr) =>
        let argv := AudioSpriteTool.ffmpeg_argv (sprite_file ".txt") (sprite_file ".ogg") in
        match subprocess argv with
        | NonZero out => (Raise (CalledProcessError out), tr ++ [Run argv])%list
        | Exit0 _ =>
            (Ok (sprite_file ".ogg"),
             tr ++ [Run argv;
                    Write (sprite_file ".ogg") (SpriteAudio paths);
                    Unlink (sprite_file ".txt");
                    Write (sprite_file ".json") (Json (fst st))])%list
        end
    end.
Proof.
  intros Hlen. unfold AudioSpriteTool._run.
  destruct (Z.ltb_spec (Z.of_nat (List.length paths)) 2); [lia |].
  rewrite !as_posix_AUD_DIR by (apply sprite_name_clean; [reflexivity | simpl; lia]).
  rewrite !joinpath_clean by (apply sprite_name_clean; [reflexivity | simpl; lia]).
  fold (sprite_file ".txt"). fold (sprite_file ".ogg").
  cbn [root parts AUD_DIR ASSET_DIR joinpath parse app].
  change (parts AUD_DIR) with ["assets"; "audio"]. change (root AUD_DIR) with "".
  cbn [app].
  rewrite json_beside_sprite by apply sprite_id_plain.
  unfold bind, emit, check_call, check_output, bind, ret, lift. cbn [app].
  destruct (AudioSpriteTool.for_paths (sprite_file ".txt") paths [] fzero
              [Write (sprite_file ".txt") (Text "")]) as [[st | e] tr]; [| reflexivity].
  cbv zeta.
  destruct (subprocess (AudioSpriteTool.ffmpeg_argv (sprite_file ".txt") (sprite_file ".ogg")));
    [| reflexivity].
  f_equal. rewrite <- !app_assoc. reflexivity.
Qed.

(** A call on two clips or more: it fails in a probe or in the mux,
    each time before anything but the concat list is written, or it
    writes the sprite and the cue map and returns the sprite. *)
Lemma sprite_run (paths : list string) :
  (2 <= List.length paths)%nat ->
  exists ext, Forall probing ext /\
    ((exists msg e,
        AudioSpriteTool._run paths []
        = (Raise (RuntimeError msg e), Write (sprite_file ".txt") (Text "") :: ext))
     \/ (exists output,
           AudioSpriteTool._run paths []
           = (Raise (CalledProcessError output),
              Write (sprite_file ".txt") (Text "") :: ext))
     \/ (exists durs,
           Forall2 (fun p d => probed p = Some d) paths durs /\
           AudioSpriteTool._run paths []
           = (Ok (sprite_file ".ogg"),
              Write (sprite_file ".txt") (Text "") :: ext ++
              [Write (sprite_file ".ogg") (SpriteAudio paths);
               Unlink (sprite_file ".txt");
               Write (sprite_file ".json")
                 (Json (fst (fill (clips_of paths durs) [] fzero)))])%list)).
Proof.
  intros Hlen. rewrite (sprite_run_eq paths Hlen).
  destruct (for_paths_spec paths [] fzero [Write (sprite_file ".txt") (Text "")])
    as (ext & Hext & [(msg & e & ->) | (durs & Hdurs & ->)]).
  - exists ext. split; [assumption |]. left. eauto.
  - cbv zeta.
    set (argv := AudioSpriteTool.ffmpeg_argv (sprite_file ".txt") (sprite_file ".ogg")).
    exists (ext ++ [Run argv])%list. split.
    { apply Forall_app; split; [assumption |].
      constructor; [right; eexists; reflexivity | constructor]. }
    destruct (subprocess argv) as [out | out].
    + right; right. exists durs. split; [assumption |].
      simpl. rewrite <- ?app_assoc. reflexivity.
    + right; left. exists out. simpl. rewrite <- ?app_assoc. reflexivity.
Qed.

End Sprite.

(** ** Audio Normalizer *)

Section Normalize.
Context `{World}.
Import Py pathlib PathFacts StringFacts.

Lemma stem_nonempty (p : Path) : name p <> "" -> stem p <> "".
Proof.
  intros Hn. unfold stem.
  destruct (Z.ltb_spec 0 (rfind "." (name p))) as [Hpos |]; [| assumption].
  destruct (rfind "." (name p) <? len (name p) - 1); [| assumption].
  unfold take. destruct (name p) as [|a n]; [congruence |].
  destruct (Z.to_nat (rfind "." (String a n))) eqn:E; [lia |].
  discriminate.
Qed.

Lemma stem_clean (s : string) :
  name (parse s) <> "" -> stem (parse s) <> "." -> clean (stem (parse s)).
Proof.
  intros Hn Hdot. split.
  - apply stem_without_slash, name_without_slash.
  - unfold is_part. apply stem_nonempty in Hn.
    destruct (String.eqb_spec (stem (parse s)) ""); [contradiction |].
    destruct (String.eqb_spec (stem (parse s)) "."); [contradiction | reflexivity].
Qed.

(** What a call on a decodable source does. *)
Lemma normalize_run (path : string) (target_lufs : float) (sound : AudioSegment) :
  from_file path = Some sound ->
  let trimmed :=
    strip_silence (apply_gain sound (fsub target_lufs (dBFS sound))) 200 (-40) in
  let out_base := as_posix (joinpath AUD_DIR (stem (parse path))) in
  AudioNormalizeTool._run path target_lufs []
  = (Ok (out_base ++ ".ogg"),
     [Write (out_base ++ ".ogg") (CodedAudio trimmed "ogg" "96k");
      Write (out_base ++ ".mp3") (CodedAudio trimmed "mp3" "128k")]).
Proof.
  intros Hload. unfold AudioNormalizeTool._run. rewrite Hload. reflexivity.
Qed.

(** With a stem that is not a single dot the exports lie in the
    audio directory under the stem's name. *)
Lemma normalize_exports (path : string) (target_lufs : float) (sound : AudioSegment) :
  from_file path = Some sound ->
  stem (parse path) <> "." ->
  let trimmed :=
    strip_silence (apply_gain sound (fsub target_lufs (dBFS sound))) 200 (-40) in
  let ogg := "assets/audio/" ++ stem (parse path) ++ ".ogg" in
  let mp3 := "assets/audio/" ++ stem (parse path) ++ ".mp3" in
  AudioNormalizeTool._run path target_lufs []
  = (Ok ogg, [Write ogg (CodedAudio trimmed "ogg" "96k");
              Write mp3 (CodedAudio trimmed "mp3" "128k")])
  /\ in_dir AUD_DIR ogg /\ in_dir AUD_DIR mp3.
Proof.
  intros Hload Hdot.
  pose proof (stem_clean path (from_file_file _ _ Hload) Hdot) as Hclean.
  split.
  - rewrite (normalize_run _ _ _ Hload).
    rewrite as_posix_AUD_DIR by assumption.
    rewrite !append_assoc. reflexivity.
  - destruct Hclean as [Hslash _].
    split; apply in_AUD_DIR, clean_append; auto; simpl; lia.
Qed.
End Normalize.

(** ** Repository Sync *)

Section Git.
Context `{World}.
Import Py.

(** The call, by the outcome of each command. *)
Lemma git_run (commit_message : string) tr :
  GitOpsTool._run commit_message tr
  = let add := ["git"; "add"; "."] in
    let commit := ["git"; "commit"; "-m"; commit_message] in
    let push := ["git"; "push"] in
    match subprocess add with
    | NonZero output => (Ok ("Git error: " ++ strip output), (tr ++ [Run add])%list)
    | Exit0 _ =>
        match subprocess commit with
        | NonZero output =>
            (Ok ("Git error: " ++ strip output), (tr ++ [Run add; Run commit])%list)
        | Exit0 _ =>
            match subprocess push with
            | NonZero _ =>
                (Ok GitOpsTool.committed_locally, tr ++ [Run add; Run commit; Run push])%list
            | Exit0 _ =>
                (Ok GitOpsTool.pushed, tr ++ [Run add; Run commit; Run push])%list
            end
        end
    end.
Proof.
  unfold GitOpsTool._run, GitOpsTool._git, try_except, bind, check_output,
    except_CalledProcessError, ret.
  cbv zeta.
  destruct (subprocess ["git"; "add"; "."]); [| reflexivity].
  destruct (subprocess ["git"; "commit"; "-m"; commit_message]);
    [| rewrite <- !app_assoc; reflexivity].
  destruct (subprocess ["git"; "push"]); rewrite <- !app_assoc; reflexivity.
Qed.
End Git.

(** ** The properties of the tools *)

Section Claims.
Context `{World}.
Import Py pathlib PathFacts StringFacts DictFacts.

Lemma written_app (a b : list event) : written (a ++ b) = (written a ++ written b)%list.
Proof. unfold written. apply flat_map_app. Qed.

Lemma probing_written (ext : list event) :
  Forall probing ext -> Forall (fun f => f = sprite_file ".txt") (written ext).
Proof.
  induction 1 as [|e ext He _ IH]; [constructor |].
  destruct He as [[text ->] | [argv ->]]; simpl; [constructor; auto | assumption].
Qed.







Lemma sprite_too_few (paths : list string) :
  (List.length paths < 2)%nat ->
  AudioSpriteTool._run paths [] = (Raise (ValueError AudioSpriteTool.too_few), []).
Proof.
  intros Hlen. unfold AudioSpriteTool._run.
  destruct (Z.ltb_spec (Z.of_nat (List.length paths)) 2); [reflexivity | lia].
Qed.

(** C5.  Given fewer than two clip paths the Audio Sprite Builder
    raises its invalid-argument error and has written nothing and
    run nothing; given two or more it raises no invalid-argument
    error at all. *)
Theorem sprite_needs_two_clips (paths : list string) :
  ((List.length paths < 2)%nat ->
   AudioSpriteTool._run paths [] = (Raise (ValueError AudioSpriteTool.too_few), [])) /\
  ((2 <= List.length paths)%nat ->
   forall msg tr, AudioSpriteTool._run paths [] <> (Raise (ValueError msg), tr)).
Proof.
  split; [apply sprite_too_few |].
  - intros Hlen msg tr Hrun.
    destruct (sprite_run paths Hlen)
      as (ext & _ & [(m & e & E) | [(o & E) | (durs & _ & E)]]);
      rewrite E in Hrun; discriminate Hrun.
Qed.

(** What Repository Sync returns, by the exit status of each
    command.  When staging and commit succeed and the push fails it
    returns a success string, which differs from the one returned
    when the push succeeds.  When staging or the commit exits with a
    status other than zero it returns [Git error: ] followed by the
    command's captured standard output, stripped.  No command that
    runs to completion makes it raise. *)
Theorem git_sync_reports (commit_message : string) (tr : list event) :
  let add := ["git"; "add"; "."] in
  let commit := ["git"; "commit"; "-m"; commit_message] in
  let push := ["git"; "push"] in
  let returned := fst (GitOpsTool._run commit_message tr) in
  (forall a c o,
     subprocess add = Exit0 a -> subprocess commit = Exit0 c ->
     subprocess push = NonZero o ->
     returned = Ok GitOpsTool.committed_locally) /\
  (forall a c p,
     subprocess add = Exit0 a -> subprocess commit = Exit0 c ->
     subprocess push = Exit0 p ->
     returned = Ok GitOpsTool.pushed) /\
  GitOpsTool.pushed <> GitOpsTool.committed_locally /\
  (forall o, subprocess add = NonZero o ->
     returned = Ok ("Git error: " ++ strip o)) /\
  (forall a o, subprocess add = Exit0 a -> subprocess commit = NonZero o ->
     returned = Ok ("Git error: " ++ strip o)) /\
  (exists s, returned = Ok s).
Proof.
  cbv zeta. rewrite git_run. cbv zeta.
  repeat split.
  - intros a c o -> -> ->. reflexivity.
  - intros a c p -> -> ->. reflexivity.
  - discriminate.
  - intros o ->. reflexivity.
  - intros a o -> ->. reflexivity.
  - destruct (subprocess ["git"; "add"; "."]); [| eexists; reflexivity].
    destruct (subprocess ["git"; "commit"; "-m"; commit_message]); [| eexists; reflexivity].
    destruct (subprocess ["git"; "push"]); eexists; reflexivity.
Qed.

(** C7.  On a decodable source image, in a supported format and
    with a budget of 200 KB, as with any other budget, the Image
    Compressor returns after one to eight encodings, at the
    qualities 80, 70, ... in this order, and the path it returns
    ends in a dot and the format's name in lower case. *)
Theorem compress_within_eight_steps (png_path fmt : string) (target_size_kb : Z)
    (im : Image) :
  upper fmt = "AVIF" \/ upper fmt = "WEBP" ->
  Image_open png_path = Some im ->
  exists out tried rest,
    ImageCompressTool._run png_path fmt target_size_kb []
    = (Ok out, map (fun q => Write out (CodedImage im (upper fmt) q)) tried) /\
    qualities = (tried ++ rest)%list /\
    (1 <= List.length tried <= 8)%nat /\
    exists pre, out = pre ++ "." ++ lower (upper fmt).
Proof.
  intros Hfmt Hopen.
  destruct (compress_run png_path fmt target_size_kb im Hfmt Hopen)
    as (out_file & out & _ & _ & Hrun & Hext).
  destruct (attempts_shape (fun q => size_kb im (upper fmt) q <=? target_size_kb) qualities)
    as (front & q & rest & Ha & Hq & _ & _); [discriminate |].
  exists out, (front ++ [q])%list, rest.
  rewrite Hrun, Ha. split; [reflexivity |].
  split; [now rewrite <- app_assoc |].
  split; [| assumption].
  apply (f_equal (@List.length Z)) in Hq.
  rewrite length_app in *. simpl in *. lia.
Qed.

(** C2 (amended).  On a decodable source image, in a supported
    format, the Image Compressor encodes at quality 80 and then 10
    lower each time; it stops at the first encoding whose size in
    whole kilobytes, the byte size divided by 1024 and rounded down,
    is at or under the budget, every encoding before that one being
    over it, or else after the encoding at quality 10.  The file it
    returns is the last encoding: within the budget so counted, or
    the one at quality 10. *)
Theorem compress_stops_at_budget_or_floor (png_path fmt : string) (target_size_kb : Z)
    (im : Image) :
  upper fmt = "AVIF" \/ upper fmt = "WEBP" ->
  Image_open png_path = Some im ->
  exists out front q rest,
    ImageCompressTool._run png_path fmt target_size_kb []
    = (Ok out, map (fun x => Write out (CodedImage im (upper fmt) x)) (front ++ [q])) /\
    qualities = (front ++ q :: rest)%list /\
    Forall (fun x => target_size_kb < size_kb im (upper fmt) x) front /\
    (size_kb im (upper fmt) q <= target_size_kb \/ q = 10).
Proof.
  intros Hfmt Hopen.
  destruct (compress_run png_path fmt target_size_kb im Hfmt Hopen)
    as (out_file & out & _ & _ & Hrun & _).
  destruct (attempts_shape (fun q => size_kb im (upper fmt) q <=? target_size_kb) qualities)
    as (front & q & rest & Ha & Hq & Hfront & Hlast); [discriminate |].
  exists out, front, q, rest.
  rewrite Hrun, Ha. split; [reflexivity |]. split; [assumption |]. split.
  - eapply Forall_impl; [| exact Hfront]. intros x Hx. now apply Z.leb_gt.
  - destruct Hlast as [Hfit | [_ ->]].
    + left. now apply Z.leb_le.
    + right.
      assert (Hl : last qualities 0 = 10) by reflexivity.
      rewrite Hq in Hl. now rewrite last_last in Hl.
Qed.

(** C3 (amended).  The three variants the Image Responsive
    Generator produces, for 16:9, 3:2 and 1:1 in this order, are no
    wider than the maximum width and have the height
    [width * ratio_h / ratio_w] truncated to an integer, not rounded
    to the nearest. *)
Theorem responsive_heights_truncated (png_path : string) (max_width : Z) out tr :
  ImageResponsiveTool._run png_path max_width [] = (Ok out, tr) ->
  variants_sized int_div max_width tr.
Proof.
  intros Hrun.
  destruct (responsive_run _ _ _ _ Hrun) as (src & _ & _ & _ & _ & ->).
  unfold variants_sized, ImageResponsiveTool.variants. simpl.
  repeat constructor; do 2 eexists; (split; [reflexivity |]);
    unfold width, height; simpl; split; (lia || reflexivity).
Qed.

(** C9.  On a decodable source image and a maximum width of two
    pixels or more the Image Responsive Generator returns, and
    whenever it returns, each of its three variants is exactly as
    wide as the maximum width, whatever the width of the source: a
    narrower source is scaled up. *)
Theorem responsive_width_is_max_width (png_path : string) (max_width : Z) (src : Image) :
  Image_open png_path = Some src ->
  (2 <= max_width ->
   exists out tr, ImageResponsiveTool._run png_path max_width [] = (Ok out, tr)) /\
  (forall out tr,
     ImageResponsiveTool._run png_path max_width [] = (Ok out, tr) ->
     List.length out = 3%nat /\
     exists v169 v32 v11,
       tr = map (fun nv : string * Fitted =>
                   Write (variant_name png_path (fst nv)) (PngImage (snd nv)))
              [("169", v169); ("32", v32); ("11", v11)] /\
       Forall (fun v => fit_src v = src /\ width v = max_width /\
                        (fst (Image_size src) < max_width ->
                         fst (Image_size (fit_src v)) < width v))
              [v169; v32; v11]).
Proof.
  intros Hopen. split; [intros Hw; eapply responsive_returns; eassumption |].
  intros out tr Hrun.
  destruct (responsive_run _ _ _ _ Hrun) as (src' & Hopen' & _ & _ & -> & ->).
  assert (src' = src) as -> by congruence.
  split; [reflexivity |].
  do 3 eexists. split; [reflexivity |].
  constructor; [| constructor; [| constructor; [| constructor]]];
    (split; [reflexivity | split; [reflexivity | intros Hnarrow; exact Hnarrow]]).
Qed.

Lemma for_variants_written : forall vs src png_path max_width out tr0,
  Forall (fun kv : string * (Z * Z) => contains "/" (fst kv) = false) vs ->
  exists ext,
    snd (ImageResponsiveTool.for_variants src png_path max_width vs out tr0)
    = (tr0 ++ ext)%list /\
    Forall (in_dir IMG_DIR) (written ext).
Proof.
  induction vs as [|[key [w_ratio h_ratio]] vs IH]; intros src png_path max_width out tr0 Hkeys.
  - exists []. simpl. now rewrite app_nil_r.
  - inversion Hkeys as [|? ? Hkey Hrest]; subst. simpl in Hkey.
    cbn [ImageResponsiveTool.for_variants]. unfold bind at 1.
    destruct (fit_cases src max_width (int_div (max_width * h_ratio) w_ratio) tr0)
      as [(_ & _ & ->) | (_ & e & ->)].
    + unfold bind at 1, emit at 1. rewrite out_name_eq by assumption.
      destruct (IH src png_path max_width
                  (out ++ [variant_name png_path key])%list
                  (tr0 ++ [Write (variant_name png_path key)
                             (PngImage {| fit_src := src;
                                          fit_size := (max_width,
                                            int_div (max_width * h_ratio) w_ratio) |})])%list
                  Hrest) as (ext & -> & Hext).
      eexists. rewrite <- app_assoc. split; [reflexivity |].
      simpl. constructor; [| assumption].
      apply in_IMG_DIR, variant_name_clean. assumption.
    + exists []. simpl. now rewrite app_nil_r.
Qed.

Lemma written_rewrites {A} (out : string) (c : A -> content) (l : list A) :
  Forall (fun f => f = out) (written (map (fun x => Write out (c x)) l)).
Proof. induction l; simpl; constructor; auto. Qed.

Lemma compress_returns_inv (png_path fmt : string) (target : Z) out tr :
  ImageCompressTool._run png_path fmt target [] = (Ok out, tr) ->
  (upper fmt = "AVIF" \/ upper fmt = "WEBP") /\
  exists im, Image_open png_path = Some im.
Proof.
  unfold ImageCompressTool._run.
  destruct (String.eqb_spec (upper fmt) "AVIF") as [E | _]; simpl.
  - destruct (Image_open png_path) as [im |]; [eauto | discriminate].
  - destruct (String.eqb_spec (upper fmt) "WEBP") as [E | _]; simpl; [| discriminate].
    destruct (Image_open png_path) as [im |]; [eauto | discriminate].
Qed.

(** C8 (amended).  The responsive variants are written into
    [assets/images/]; the files of a sprite, which are the concat
    list, the sprite and its cue map, are written into
    [assets/audio/]; so is the normalized audio of a source whose
    stem is not a single dot.  A compressed image is written
    elsewhere: at the source path with its extension replaced. *)
Theorem media_directories :
  (forall png_path max_width,
     Forall (in_dir IMG_DIR)
       (written (snd (ImageResponsiveTool._run png_path max_width [])))) /\
  (forall paths,
     Forall (in_dir AUD_DIR) (written (snd (AudioSpriteTool._run paths [])))) /\
  (forall path target_lufs,
     stem (parse path) <> "." ->
     Forall (in_dir AUD_DIR)
       (written (snd (AudioNormalizeTool._run path target_lufs [])))) /\
  (forall png_path fmt target_size_kb out tr,
     ImageCompressTool._run png_path fmt target_size_kb [] = (Ok out, tr) ->
     exists out_file,
       with_suffix (parse png_path) ("." ++ lower (upper fmt)) = Ok out_file /\
       out = as_posix out_file /\
       Forall (fun f => f = out) (written tr)).
Proof.
  split; [| split; [| split]].
  - intros png_path max_width. unfold ImageResponsiveTool._run.
    destruct (Image_open png_path) as [src |]; [| constructor].
    destruct (for_variants_written ImageResponsiveTool.variants src png_path max_width [] [])
      as (ext & -> & Hext); [repeat constructor | exact Hext].
  - intros paths.
    destruct (le_lt_dec 2 (List.length paths)) as [Hlen | Hlen].
    + assert (Htxt : in_dir AUD_DIR (sprite_file ".txt"))
        by (apply sprite_file_in_AUD_DIR; [reflexivity | simpl; lia]).
      assert (Hscratch : forall ext, Forall probing ext ->
                           Forall (in_dir AUD_DIR) (written ext)).
      { intros ext Hext. eapply Forall_impl; [| exact (probing_written _ Hext)].
        intros f ->. exact Htxt. }
      destruct (sprite_run paths Hlen)
        as (ext & Hext & [(msg & e & ->) | [(o & ->) | (durs & _ & ->)]]); simpl.
      * constructor; auto.
      * constructor; auto.
      * constructor; [assumption |]. rewrite written_app.
        apply Forall_app; split; [auto |]. simpl.
        constructor; [| constructor; [| constructor]];
          apply sprite_file_in_AUD_DIR; try reflexivity; simpl; lia.
    + rewrite (sprite_too_few paths Hlen). constructor.
  - intros path target_lufs Hdot.
    destruct (from_file path) as [sound |] eqn:Hload.
    + destruct (normalize_exports path target_lufs sound Hload Hdot) as (-> & Hogg & Hmp3).
      simpl. constructor; [assumption |]. constructor; [assumption | constructor].
    + unfold AudioNormalizeTool._run. rewrite Hload. constructor.
  - intros png_path fmt target_size_kb out tr Hrun.
    destruct (compress_returns_inv _ _ _ _ _ Hrun) as (Hsup & im & Hopen).
    destruct (compress_run png_path fmt target_size_kb im Hsup Hopen)
      as (out_file & out' & Hsfx & -> & Hrun' & _).
    rewrite Hrun' in Hrun. injection Hrun as <- <-.
    exists out_file. split; [assumption |]. split; [reflexivity |].
    apply written_rewrites.
Qed.

End Claims.

(** ** The tools at work *)

Import Py pathlib.

(** C6.  The Audio Normalizer on a decodable source named [..wav]:
    the stem is a single dot, joining it to the audio directory gives
    the directory itself, and the two exports are written beside the
    audio directory as [assets/audio.ogg] and [assets/audio.mp3], not
    into it under the stem's name. *)
Theorem normalize_single_dot_stem :
  stem (parse "..wav") = "." /\
  @from_file Demo.studio "..wav" <> None /\
  @AudioNormalizeTool._run Demo.studio "..wav" (-14) []
  = (Ok "assets/audio.ogg",
     [Write "assets/audio.ogg" (@CodedAudio Demo.studio (-14) "ogg" "96k");
      Write "assets/audio.mp3" (@CodedAudio Demo.studio (-14) "mp3" "128k")]) /\
  ~ in_dir AUD_DIR "assets/audio.ogg" /\
  ~ in_dir AUD_DIR "assets/audio.mp3".
Proof.
  split; [reflexivity |]. split; [discriminate |]. split; [reflexivity |].
  split; intros [Hparent _]; discriminate Hparent.
Qed.


Lemma sprite_needs_two_clips_witness :
  @AudioSpriteTool._run Demo.booth ["a/x.wav"] []
  = (Raise (ValueError AudioSpriteTool.too_few), []).
Proof.
  apply (proj1 (@sprite_needs_two_clips Demo.booth ["a/x.wav"])). simpl. lia.
Defined.

Lemma git_sync_reports_witness :
  fst (@GitOpsTool._run Demo.no_remote "asset-update" [])
  = Ok GitOpsTool.committed_locally.
Proof.
  destruct (@git_sync_reports Demo.no_remote "asset-update" []) as (Hlocal & _).
  eapply Hlocal; reflexivity.
Defined.

Lemma compress_within_eight_steps_witness :
  exists (out : string) (tried : list Z),
    fst (@ImageCompressTool._run Demo.darkroom "foo/bar.png" "webp" 200 []) = Ok out /\
    (1 <= List.length tried <= 8)%nat /\
    exists pre, out = pre ++ ".webp".
Proof.
  destruct (@compress_within_eight_steps Demo.darkroom "foo/bar.png" "webp" 200 tt)
    as (out & tried & rest & Hrun & _ & Hlen & Hext).
  - right. reflexivity.
  - reflexivity.
  - exists out, tried. rewrite Hrun. auto.
Defined.

Lemma compress_stops_at_budget_or_floor_witness :
  exists out q,
    fst (@ImageCompressTool._run Demo.darkroom "foo/bar.png" "AVIF" 200 []) = Ok out /\
    (@size_kb Demo.darkroom tt "AVIF" q <= 200 \/ q = 10).
Proof.
  destruct (@compress_stops_at_budget_or_floor Demo.darkroom "foo/bar.png" "AVIF" 200 tt)
    as (out & front & q & rest & Hrun & _ & _ & Hlast).
  - left. reflexivity.
  - reflexivity.
  - exists out, q. rewrite Hrun. auto.
Defined.

(** An encoding of 204801 bytes is returned at quality 80 for a budget
    of 200 KB, which is 204800 bytes. *)
Lemma compress_exceeds_byte_budget : ~ @budget_kept Demo.studio "foo/bar.png" "AVIF" 200.
Proof.
  intros Hc.
  evaluate (@ImageCompressTool._run Demo.studio "foo/bar.png" "AVIF" 200 []) E.
  specialize (Hc _ _ tt "AVIF" 80 E eq_refl).
  destruct Hc as [Hle | Hfloor]; [| discriminate Hfloor].
  apply Hle. reflexivity.
Qed.

Lemma responsive_heights_truncated_witness :
  @variants_sized Demo.studio int_div 300
    (snd (@ImageResponsiveTool._run Demo.studio "pics/hero.png" 300 [])).
Proof.
  evaluate (@ImageResponsiveTool._run Demo.studio "pics/hero.png" 300 []) E.
  rewrite E.
  exact (@responsive_heights_truncated Demo.studio "pics/hero.png" 300 _ _ E).
Defined.

(** At a width of 300 the 16:9 variant is 168 high; 300 * 9 / 16 is
    168.75 and rounds to 169. *)
Lemma responsive_heights_not_rounded : ~ @responsive_rounded Demo.studio "pics/hero.png" 300.
Proof.
  intros Hc.
  evaluate (@ImageResponsiveTool._run Demo.studio "pics/hero.png" 300 []) E.
  specialize (Hc _ _ E).
  inversion Hc as [| kv e ? ? (path & v & Hwrite & _ & Hheight) _]; subst.
  injection Hwrite as _ <-. discriminate Hheight.
Qed.

Lemma responsive_width_is_max_width_witness :
  exists out tr,
    @ImageResponsiveTool._run Demo.studio "pics/hero.png" 1024 [] = (Ok out, tr) /\
    List.length out = 3%nat.
Proof.
  destruct (@responsive_width_is_max_width Demo.studio "pics/hero.png" 1024 tt eq_refl)
    as (Hreturns & Hwidths).
  destruct Hreturns as (out & tr & Hrun); [lia |].
  exists out, tr. split; [assumption |].
  exact (proj1 (Hwidths out tr Hrun)).
Defined.

Lemma media_directories_witness :
  Forall (in_dir AUD_DIR)
    (written (snd (@AudioNormalizeTool._run Demo.studio "in/beep.wav" (-14) []))).
Proof.
  destruct (@media_directories Demo.studio) as (_ & _ & Haudio & _).
  apply Haudio. discriminate.
Defined.

(** The compressed [foo/bar.png] is written to [foo/bar.avif]. *)
Lemma compressed_outside_fixed_dirs :
  ~ @in_fixed_dirs Demo.studio
      (snd (@ImageCompressTool._run Demo.studio "foo/bar.png" "AVIF" 200 [])).
Proof.
  evaluate (@ImageCompressTool._run Demo.studio "foo/bar.png" "AVIF" 200 []) E.
  rewrite E. unfold in_fixed_dirs. simpl. intros Hc.
  inversion Hc as [| f l [[Hparent _] | [Hparent _]] _]; discriminate Hparent.
Qed.

(** ** Beyond the claims: paths written and read back *)

Module PathRoundTrip.
Import Py pathlib StringFacts PathFacts.

Lemma append_nil_r (s : string) : s ++ "" = s.
Proof. induction s as [|a s IH]; simpl; [reflexivity | now rewrite IH]. Qed.

Lemma append_inj_l (a b c : string) : a ++ b = a ++ c -> b = c.
Proof. induction a as [|x a IH]; simpl; intros E; [assumption | injection E; auto]. Qed.

Lemma take_drop (s : string) : forall k,
  (k <= String.length s)%nat ->
  String.substring 0 k s ++ String.substring k (String.length s - k) s = s.
Proof.
  induction s as [|a s IH]; intros k Hk; simpl in Hk.
  - destruct k; [reflexivity | lia].
  - destruct k as [|k]; simpl.
    + f_equal. clear IH Hk. induction s as [|b s IH]; simpl; [reflexivity | now rewrite IH].
    + f_equal. apply IH. lia.
Qed.

Lemma stem_suffix (p : Path) : stem p ++ suffix p = name p.
Proof.
  unfold stem, suffix.
  destruct (Z.ltb_spec 0 (rfind "." (name p))) as [Hpos |]; simpl;
    [| apply append_nil_r].
  destruct (Z.ltb_spec (rfind "." (name p)) (len (name p) - 1)) as [Hlt |]; simpl;
    [| apply append_nil_r].
  unfold take, drop. apply take_drop. unfold len in Hlt. lia.
Qed.

Lemma concat_cons2 (x y : string) (l : list string) :
  String.concat "/" (x :: y :: l) = x ++ String "/" (String.concat "/" (y :: l)).
Proof. reflexivity. Qed.

Lemma split_concat (ps : list string) :
  Forall clean ps -> ps <> [] -> split "/" (String.concat "/" ps) = ps.
Proof.
  induction 1 as [|x ps [Hx _] Hps IH]; intros Hne; [congruence |].
  destruct ps as [|y ps].
  - simpl. now apply split_without.
  - rewrite concat_cons2, split_at_first by assumption.
    f_equal. apply IH. discriminate.
Qed.

Lemma filter_clean (ps : list string) : Forall clean ps -> filter is_part ps = ps.
Proof.
  induction 1 as [|x ps [_ Hx] _ IH]; simpl; [reflexivity |].
  now rewrite Hx, IH.
Qed.

Lemma concat_starts (ps : list string) :
  Forall clean ps -> ps <> [] ->
  exists a r, String.concat "/" ps = String a r /\ Ascii.eqb a "/" = false.
Proof.
  intros Hps Hne. destruct Hps as [|x ps [Hslash Hpart] _]; [congruence |].
  destruct x as [|a x]; [discriminate Hpart |].
  simpl in Hslash. apply orb_false_iff in Hslash as [Ha _].
  destruct ps as [|y ps]; simpl; eauto.
Qed.

(** A path of clean components reads back as itself. *)
Lemma parse_as_posix (q : Path) :
  root q = "" \/ root q = "/" \/ root q = "//" ->
  Forall clean (parts q) ->
  parse (as_posix q) = q.
Proof.
  destruct q as [r ps]; simpl. intros Hr Hps.
  destruct ps as [|x ps].
  - destruct Hr as [-> | [-> | ->]]; reflexivity.
  - rewrite as_posix_parts by discriminate. cbn [root parts].
    destruct (concat_starts (x :: ps) Hps) as (a & rest & Hc & Ha); [discriminate |].
    pose proof (split_concat (x :: ps) Hps) as Hsplit.
    specialize (Hsplit ltac:(discriminate)).
    unfold parse.
    destruct Hr as [-> | [-> | ->]].
    + change ("" ++ String.concat "/" (x :: ps)) with (String.concat "/" (x :: ps)).
      f_equal.
      * rewrite Hc. unfold parse_root. simpl. now rewrite Ha.
      * rewrite Hsplit. now apply filter_clean.
    + f_equal.
      * change ("/" ++ String.concat "/" (x :: ps))
          with (String "/" (String.concat "/" (x :: ps))).
        rewrite Hc. unfold parse_root. simpl. now rewrite Ha.
      * change ("/" ++ String.concat "/" (x :: ps))
          with ("" ++ String "/" (String.concat "/" (x :: ps))).
        rewrite split_at_first by reflexivity. rewrite Hsplit.
        change (filter is_part ("" :: x :: ps)) with (filter is_part (x :: ps)).
        now apply filter_clean.
    + f_equal.
      * change ("//" ++ String.concat "/" (x :: ps))
          with (String "/" (String "/" (String.concat "/" (x :: ps)))).
        rewrite Hc. unfold parse_root. simpl. now rewrite Ha.
      * change ("//" ++ String.concat "/" (x :: ps))
          with ("" ++ String "/" ("" ++ String "/" (String.concat "/" (x :: ps)))).
        rewrite !split_at_first by reflexivity. rewrite Hsplit.
        change (filter is_part ("" :: "" :: x :: ps)) with (filter is_part (x :: ps)).
        now apply filter_clean.
Qed.

(** What [Path(s)] gives is such a path. *)
Lemma parse_wellformed (s : string) :
  (root (parse s) = "" \/ root (parse s) = "/" \/ root (parse s) = "//") /\
  Forall clean (parts (parse s)).
Proof.
  split.
  - simpl. unfold parse_root.
    destruct (leading_slashes s) as [|[|[|n]]]; auto.
  - simpl. apply Forall_forall. intros x Hx.
    apply filter_In in Hx as [Hx Hp]. split; [| assumption].
    eapply split_pieces; eassumption.
Qed.

Lemma removelast_clean (ps : list string) : Forall clean ps -> Forall clean (removelast ps).
Proof.
  induction 1 as [|x ps Hx Hps IH]; simpl; [constructor |].
  destruct ps; [constructor | constructor; assumption].
Qed.

End PathRoundTrip.

(** ** Beyond the claims: the Image Compressor *)

Section CompressMore.
Context `{World}.
Import Py pathlib StringFacts PathFacts PathRoundTrip.

(** The path a successful call returns, read back as a path. *)
Lemma compress_returns_path (png_path fmt : string) (target : Z) (im : Image) :
  upper fmt = "AVIF" \/ upper fmt = "WEBP" ->
  Image_open png_path = Some im ->
  exists out,
    ImageCompressTool._run png_path fmt target []
    = (Ok out, map (fun q => Write out (CodedImage im (upper fmt) q))
                 (encodings im (upper fmt) target)) /\
    parse out
    = {| root := root (parse png_path);
         parts := removelast (parts (parse png_path))
                  ++ [stem (parse png_path) ++ "." ++ lower (upper fmt)] |}.
Proof.
  intros Hfmt Hopen.
  destruct (compress_run png_path fmt target im Hfmt Hopen)
    as (out_file & out & Hsfx & -> & Hrun & _).
  exists (as_posix out_file). split; [exact Hrun |].
  destruct (supported_suffix fmt Hfmt) as [Hext Hwith].
  rewrite (Hwith (parse png_path) (Image_open_file _ _ Hopen)) in Hsfx.
  injection Hsfx as <-.
  destruct (parse_wellformed png_path) as [Hroot Hparts].
  apply parse_as_posix; [exact Hroot |]. cbn [parts].
  apply Forall_app. split; [now apply removelast_clean |].
  constructor; [| constructor].
  apply clean_append.
  - apply stem_without_slash, name_without_slash.
  - cbv zeta in Hext. destruct Hext as [-> | ->]; reflexivity.
  - cbv zeta in Hext. destruct Hext as [-> | ->]; simpl; lia.
Qed.

(** X1.  The compressed file lies in the directory of the source, under
    the source's stem and the format's name in lower case. *)
Theorem compress_beside_source (png_path fmt : string) (target_size_kb : Z) (im : Image) :
  upper fmt = "AVIF" \/ upper fmt = "WEBP" ->
  Image_open png_path = Some im ->
  exists out tr,
    ImageCompressTool._run png_path fmt target_size_kb [] = (Ok out, tr) /\
    parent (parse out) = parent (parse png_path) /\
    name (parse out) = stem (parse png_path) ++ "." ++ lower (upper fmt).
Proof.
  intros Hfmt Hopen.
  destruct (compress_returns_path png_path fmt target_size_kb im Hfmt Hopen)
    as (out & Hrun & Hparse).
  exists out. eexists. split; [exact Hrun |].
  rewrite Hparse. unfold parent, name. cbn [root parts].
  now rewrite removelast_last, last_last.
Qed.

(** X2.  A call that raises has written nothing; it raises for a format
    other than the two supported, even on an unreadable source, and
    otherwise for an unreadable source. *)
Theorem compress_failure_writes_nothing (png_path fmt : string) (target_size_kb : Z) e tr :
  ImageCompressTool._run png_path fmt target_size_kb [] = (Raise e, tr) ->
  tr = [] /\
  ((upper fmt <> "AVIF" /\ upper fmt <> "WEBP" /\
    e = ValueError "fmt must be 'AVIF' or 'WEBP'")
   \/ ((upper fmt = "AVIF" \/ upper fmt = "WEBP") /\
       Image_open png_path = None /\ e = DecodeError png_path)).
Proof.
  intros Hrun.
  destruct (String.eqb_spec (upper fmt) "AVIF") as [Ea | Na];
    [| destruct (String.eqb_spec (upper fmt) "WEBP") as [Ew | Nw]].
  3: { unfold ImageCompressTool._run in Hrun.
       destruct (String.eqb_spec (upper fmt) "AVIF"); [contradiction |].
       destruct (String.eqb_spec (upper fmt) "WEBP"); [contradiction |].
       simpl in Hrun. injection Hrun as <- <-. split; [reflexivity |]. left. auto. }
  all: assert (Hfmt : upper fmt = "AVIF" \/ upper fmt = "WEBP") by auto;
    destruct (Image_open png_path) as [im |] eqn:Hopen;
    [ destruct (compress_run png_path fmt target_size_kb im Hfmt Hopen)
        as (? & ? & _ & _ & Hok & _); rewrite Hok in Hrun; discriminate Hrun
    | unfold ImageCompressTool._run in Hrun; rewrite Hopen in Hrun;
      replace (negb ((upper fmt =? "AVIF")%string || (upper fmt =? "WEBP")%string))
        with false in Hrun by (destruct Hfmt as [-> | ->]; reflexivity);
      injection Hrun as <- <-; split; [reflexivity |]; right; auto ].
Qed.

Lemma attempts_weaker (f g : Z -> bool) :
  (forall q, f q = true -> g q = true) ->
  forall qs, exists extra, attempts f qs = (attempts g qs ++ extra)%list.
Proof.
  intros Hfg. induction qs as [|q qs [extra IH]]; simpl.
  - now exists [].
  - destruct (f q) eqn:Hf.
    + rewrite (Hfg _ Hf). now exists [].
    + destruct (g q).
      * exists (attempts f qs). reflexivity.
      * exists extra. now rewrite IH.
Qed.

(** X3.  Under a larger budget the compressor makes the same encodings as
    under a smaller one and stops no later: never more encodings, and
    the same output path. *)
Theorem compress_budget_monotone (png_path fmt : string) (small large : Z) (im : Image) :
  upper fmt = "AVIF" \/ upper fmt = "WEBP" ->
  Image_open png_path = Some im ->
  small <= large ->
  exists out extra,
    ImageCompressTool._run png_path fmt large []
    = (Ok out, map (fun q => Write out (CodedImage im (upper fmt) q))
                 (encodings im (upper fmt) large)) /\
    ImageCompressTool._run png_path fmt small []
    = (Ok out, map (fun q => Write out (CodedImage im (upper fmt) q))
                 (encodings im (upper fmt) large ++ extra)) /\
    (List.length (encodings im (upper fmt) large)
     <= List.length (encodings im (upper fmt) small))%nat.
Proof.
  intros Hfmt Hopen Hle.
  destruct (compress_run png_path fmt large im Hfmt Hopen)
    as (fl & outl & Hsl & -> & Hrunl & _).
  destruct (compress_run png_path fmt small im Hfmt Hopen)
    as (fs & outs & Hss & -> & Hruns & _).
  assert (fs = fl) as -> by congruence.
  destruct (attempts_weaker (fun q => size_kb im (upper fmt) q <=? small)
              (fun q => size_kb im (upper fmt) q <=? large)) with (qs := qualities)
    as [extra Hextra].
  { intros q Hq. apply Z.leb_le in Hq. apply Z.leb_le. lia. }
  exists (as_posix fl), extra. unfold encodings.
  split; [exact Hrunl |]. split.
  - rewrite Hruns, Hextra. reflexivity.
  - rewrite Hextra, length_app. lia.
Qed.

(** X4.  A source that already carries the format's extension is its own
    output: every encoding is written over the source file. *)
Theorem compress_overwrites_source (png_path fmt : string) (target_size_kb : Z) (im : Image) :
  upper fmt = "AVIF" \/ upper fmt = "WEBP" ->
  Image_open png_path = Some im ->
  suffix (parse png_path) = "." ++ lower (upper fmt) ->
  ImageCompressTool._run png_path fmt target_size_kb []
  = (Ok (as_posix (parse png_path)),
     map (fun q => Write (as_posix (parse png_path)) (CodedImage im (upper fmt) q))
       (encodings im (upper fmt) target_size_kb)).
Proof.
  intros Hfmt Hopen Hsuffix.
  destruct (compress_run png_path fmt target_size_kb im Hfmt Hopen)
    as (out_file & out & Hsfx & -> & Hrun & _).
  destruct (supported_suffix fmt Hfmt) as [_ Hwith].
  pose proof (Image_open_file _ _ Hopen) as Hname.
  rewrite (Hwith (parse png_path) Hname) in Hsfx. injection Hsfx as Hfile.
  assert (Hx : stem (parse png_path) ++ ("." ++ lower (upper fmt)) = name (parse png_path))
    by (rewrite <- Hsuffix; apply stem_suffix).
  assert (Hsame : out_file = parse png_path).
  { rewrite <- Hfile.
    transitivity {| root := root (parse png_path);
                    parts := removelast (parts (parse png_path))
                             ++ [name (parse png_path)] |}.
    - do 3 f_equal. exact Hx.
    - unfold name. rewrite <- app_removelast_last.
      + now destruct (parse png_path).
      + intros E. apply Hname. unfold name. now rewrite E. }
  rewrite Hsame in Hrun. exact Hrun.
Qed.

End CompressMore.

(** ** Beyond the claims: the outputs of the image and audio tools *)

Section OutputsMore.
Context `{World}.
Import Py pathlib StringFacts PathFacts PathRoundTrip.

(** The stem of [a.e] is [a], when [e] is an extension without dots. *)
Lemma stem_dot_ext (r : string) (l : list string) (a e : string) :
  a <> "" -> e <> "" -> contains "." e = false ->
  stem {| root := r; parts := l ++ [a ++ "." ++ e] |} = a.
Proof.
  intros Ha He Hdot. unfold stem, name. cbn [parts]. rewrite last_last.
  change (a ++ "." ++ e) with (a ++ String "." e).
  rewrite rfind_last by assumption.
  assert (Hlen : len (a ++ String "." e) = len a + 1 + len e).
  { unfold len. rewrite length_append. simpl String.length. lia. }
  assert (Hpa : 0 < len a) by (destruct a; [congruence | unfold len; simpl; lia]).
  assert (Hpe : 0 < len e) by (destruct e; [congruence | unfold len; simpl; lia]).
  rewrite Hlen.
  destruct (Z.ltb_spec 0 (len a)); [| lia].
  destruct (Z.ltb_spec (len a) (len a + 1 + len e - 1)); [| lia].
  apply take_append.
Qed.

Lemma variant_name_inj (png_path k k' : string) :
  variant_name png_path k = variant_name png_path k' -> k ++ ".png" = k' ++ ".png".
Proof.
  unfold variant_name. intros E.
  apply (append_inj_l "assets/images/") in E.
  apply append_inj_l in E.
  now apply (append_inj_l "_") in E.
Qed.

(** X5.  The three files of a successful call are three different files of
    the images directory, and they are the paths returned, in the
    order 16:9, 3:2, 1:1. *)
Theorem responsive_outputs_distinct (png_path : string) (max_width : Z) out tr :
  ImageResponsiveTool._run png_path max_width [] = (Ok out, tr) ->
  NoDup out /\ written tr = out /\ Forall (in_dir IMG_DIR) out /\
  out = map (variant_name png_path) ["169"; "32"; "11"].
Proof.
  intros Hrun.
  destruct (responsive_run _ _ _ _ Hrun) as (src & _ & _ & _ & -> & ->).
  split; [| split; [reflexivity | split; [| reflexivity]]].
  - simpl. constructor; [| constructor; [| constructor; [| constructor]]]; simpl.
    + intros [E | [E | []]]; apply variant_name_inj in E; discriminate E.
    + intros [E | []]; apply variant_name_inj in E; discriminate E.
    + tauto.
  - simpl. constructor; [| constructor; [| constructor; [| constructor]]];
      apply in_IMG_DIR, variant_name_clean; reflexivity.
Qed.

(** X6.  The outputs depend on the source through its stem alone: two
    sources with one stem, whatever their directories and extensions,
    are written to the same three files. *)
Theorem responsive_same_stem (p p' : string) (w w' : Z) out tr out' tr' :
  stem (parse p) = stem (parse p') ->
  ImageResponsiveTool._run p w [] = (Ok out, tr) ->
  ImageResponsiveTool._run p' w' [] = (Ok out', tr') ->
  out = out' /\ written tr = written tr'.
Proof.
  intros Hstem Hrun Hrun'.
  destruct (responsive_run _ _ _ _ Hrun) as (src & _ & _ & _ & -> & ->).
  destruct (responsive_run _ _ _ _ Hrun') as (src' & _ & _ & _ & -> & ->).
  unfold variant_name. rewrite Hstem. split; reflexivity.
Qed.

Lemma parse_variant_name (png_path key : string) :
  contains "/" key = false ->
  parse (variant_name png_path key)
  = {| root := "";
       parts := ["assets"; "images"] ++ [(stem (parse png_path) ++ "_" ++ key) ++ "." ++ "png"] |}.
Proof.
  intros Hkey. unfold variant_name.
  change ("assets/images/" ++ stem (parse png_path) ++ "_" ++ key ++ ".png")
    with ("assets/" ++ "images" ++ "/" ++ (stem (parse png_path) ++ "_" ++ key ++ ".png")).
  rewrite parse_below; [| split; reflexivity | now apply variant_name_clean].
  assert (E : stem (parse png_path) ++ "_" ++ key ++ ".png"
              = (stem (parse png_path) ++ "_" ++ key) ++ "." ++ "png")
    by (rewrite !append_assoc; reflexivity).
  rewrite E. reflexivity.
Qed.

(** X7.  Compressing a variant the responsive generator has written keeps
    it in the images directory: the result is
    [assets/images/<stem>_<key>.<format>]. *)
Theorem compress_of_variant (png_path key fmt : string) (target_size_kb : Z) (im : Image) :
  In key ["169"; "32"; "11"] ->
  upper fmt = "AVIF" \/ upper fmt = "WEBP" ->
  Image_open (variant_name png_path key) = Some im ->
  exists out tr,
    ImageCompressTool._run (variant_name png_path key) fmt target_size_kb [] = (Ok out, tr) /\
    in_dir IMG_DIR out /\
    name (parse out) = (stem (parse png_path) ++ "_" ++ key) ++ "." ++ lower (upper fmt) /\
    Forall (fun f => f = out) (written tr).
Proof.
  intros Hkey Hfmt Hopen.
  assert (Hslash : contains "/" key = false)
    by (destruct Hkey as [<- | [<- | [<- | []]]]; reflexivity).
  destruct (compress_returns_path _ fmt target_size_kb im Hfmt Hopen)
    as (out & Hrun & Hparse).
  rewrite (parse_variant_name _ _ Hslash) in Hparse.
  rewrite stem_dot_ext in Hparse;
    [| destruct (stem (parse png_path)); discriminate | discriminate | reflexivity].
  cbn [root parts] in Hparse. rewrite removelast_last in Hparse.
  exists out. eexists. split; [exact Hrun |]. split; [| split].
  - unfold in_dir. rewrite Hparse. unfold parent, name. cbn [root parts].
    rewrite removelast_last, last_last. split; [reflexivity |].
    destruct (stem (parse png_path)); discriminate.
  - rewrite Hparse. unfold name. cbn [parts]. now rewrite last_last.
  - apply written_rewrites.
Qed.

(** X8.  The normalized clip carries the stem of its source, so a sprite
    built from normalized clips is keyed by the stems of the original
    sources. *)
Theorem normalized_clip_keeps_stem (path : string) (target_lufs : float)
    (sound : AudioSegment) :
  from_file path = Some sound ->
  stem (parse path) <> "." ->
  exists ogg tr,
    AudioNormalizeTool._run path target_lufs [] = (Ok ogg, tr) /\
    stem (parse ogg) = stem (parse path).
Proof.
  intros Hload Hdot.
  destruct (normalize_exports path target_lufs sound Hload Hdot) as (Hrun & _ & _).
  do 2 eexists. split; [exact Hrun |].
  pose proof (stem_clean path (from_file_file _ _ Hload) Hdot) as Hclean.
  change ("assets/audio/" ++ stem (parse path) ++ ".ogg")
    with ("assets/" ++ "audio" ++ "/" ++ (stem (parse path) ++ ".ogg")).
  rewrite parse_below; [| split; reflexivity |].
  - apply (stem_ogg "" ["assets"; "audio"]).
    now apply name_of_clean.
  - destruct Hclean as [Hslash _]. apply clean_append; auto. simpl. lia.
Qed.

End OutputsMore.

(** ** Beyond the claims: the Audio Sprite Builder step by step *)

Section SpriteMore.
Context `{World}.
Import Py pathlib StringFacts PathFacts PathRoundTrip DictFacts.

(** Either every clip has a duration, or there is a first one that
    has none. *)
Lemma probes_split (paths : list string) :
  (exists durs, Forall2 (fun p d => probed p = Some d) paths durs)
  \/ (exists before p after dbefore,
        paths = (before ++ p :: after)%list /\
        Forall2 (fun p d => probed p = Some d) before dbefore /\
        probed p = None).
Proof.
  induction paths as [|p paths IH].
  - left. exists []. constructor.
  - destruct (probed p) as [d |] eqn:Hp.
    + destruct IH as [(durs & Hd) | (before & q & after & dbefore & -> & Hb & Hq)].
      * left. exists (d :: durs). constructor; assumption.
      * right. exists (p :: before), q, after, (d :: dbefore).
        split; [reflexivity |]. split; [constructor; assumption | assumption].
    + right. exists [], p, paths, []. split; [reflexivity |]. split; [constructor | assumption].
Qed.

Lemma for_paths_succeeds (txt : string) : forall paths durs cue cursor tr,
  Forall2 (fun p d => probed p = Some d) paths durs ->
  AudioSpriteTool.for_paths txt paths cue cursor tr
  = (Ok (fill (clips_of paths durs) cue cursor),
     (tr ++ flat_map (probe_steps txt) paths)%list).
Proof.
  induction paths as [|p paths IH]; intros durs cue cursor tr Hd.
  - inversion Hd; subst. simpl. unfold ret. now rewrite app_nil_r.
  - inversion Hd as [|? d ? durs' Hp Hrest]; subst.
    rewrite for_paths_cons.
    destruct (probe_spec p (tr ++ [Append txt ("file '" ++ p ++ "'" ++ AudioSpriteTool.newline)]))
      as [(d' & Hd' & ->) | (Hnone & _)]; [| congruence].
    assert (d' = d) as -> by congruence.
    rewrite (IH durs' _ _ _ Hrest).
    f_equal. simpl. rewrite <- !app_assoc. reflexivity.
Qed.

Lemma for_paths_fails (txt p : string) (after : list string) :
  forall before dbefore cue cursor tr,
  Forall2 (fun p d => probed p = Some d) before dbefore ->
  probed p = None ->
  exists e,
    AudioSpriteTool.for_paths txt (before ++ p :: after) cue cursor tr
    = (Raise (RuntimeError ("ffprobe failed for " ++ p ++ ": ") e),
       (tr ++ flat_map (probe_steps txt) (before ++ [p]))%list).
Proof.
  induction before as [|q before IH]; intros dbefore cue cursor tr Hb Hp.
  - simpl app. rewrite for_paths_cons.
    destruct (probe_spec p (tr ++ [Append txt ("file '" ++ p ++ "'" ++ AudioSpriteTool.newline)]))
      as [(d & Hd & _) | (_ & e & ->)]; [congruence |].
    exists e. f_equal. simpl. rewrite <- !app_assoc. reflexivity.
  - inversion Hb as [|? d ? dbefore' Hq Hrest]; subst.
    change ((q :: before) ++ p :: after)%list with (q :: (before ++ p :: after))%list.
    rewrite for_paths_cons.
    destruct (probe_spec q (tr ++ [Append txt ("file '" ++ q ++ "'" ++ AudioSpriteTool.newline)]))
      as [(d' & Hd' & ->) | (Hnone & _)]; [| congruence].
    destruct (IH dbefore' (setitem cue (stem (parse q)) (cursor, d')) (fadd cursor d')
                ((tr ++ [Append txt ("file '" ++ q ++ "'" ++ AudioSpriteTool.newline)])
                 ++ [Run (AudioSpriteTool.ffprobe_argv q)])%list Hrest Hp) as [e ->].
    exists e. f_equal. simpl. rewrite <- !app_assoc. reflexivity.
Qed.

Lemma appended_app (path : string) (a b : list event) :
  appended path (a ++ b) = (appended path a ++ appended path b)%list.
Proof. unfold appended. apply flat_map_app. Qed.

Lemma runs_app (a b : list event) : runs (a ++ b) = (runs a ++ runs b)%list.
Proof. unfold runs. apply flat_map_app. Qed.

Lemma appended_steps (txt : string) (l : list string) :
  appended txt (flat_map (probe_steps txt) l) = map concat_line l.
Proof.
  induction l as [|p l IH]; simpl; [reflexivity |].
  rewrite String.eqb_refl. simpl. f_equal. exact IH.
Qed.

Lemma runs_steps (txt : string) (l : list string) :
  runs (flat_map (probe_steps txt) l) = map AudioSpriteTool.ffprobe_argv l.
Proof. induction l as [|p l IH]; simpl; [reflexivity | now f_equal]. Qed.

Lemma leftover_steps (txt : string) (l : list string) :
  fold_left after_event (flat_map (probe_steps txt) l) [txt] = [txt].
Proof.
  induction l as [|p l IH]; simpl; [reflexivity |].
  unfold touch. simpl. rewrite String.eqb_refl. simpl. exact IH.
Qed.

Lemma appended_sprite_trace (txt ogg json : string) (l : list string) argv c1 c2 c3 :
  appended txt (Write txt c1 :: flat_map (probe_steps txt) l
                ++ [Run argv; Write ogg c2; Unlink txt; Write json c3])
  = map concat_line l.
Proof.
  change (Write txt c1 :: ?x) with ([Write txt c1] ++ x)%list.
  rewrite !appended_app, appended_steps. unfold appended. simpl.
  now rewrite app_nil_r.
Qed.

Lemma leftover_failed (txt : string) (l : list string) c (rest : list event) :
  Forall (fun e => exists argv, e = Run argv) rest ->
  leftover (Write txt c :: flat_map (probe_steps txt) l ++ rest) = [txt].
Proof.
  intros Hrest. unfold leftover. simpl. unfold touch at 1. simpl.
  rewrite fold_left_app, leftover_steps.
  induction Hrest as [|e rest [argv ->] _ IH]; simpl; auto.
Qed.

Lemma leftover_succeeded (txt ogg json : string) (l : list string) argv c1 c2 c3 :
  (ogg =? txt)%string = false -> (json =? ogg)%string = false ->
  leftover (Write txt c1 :: flat_map (probe_steps txt) l
            ++ [Run argv; Write ogg c2; Unlink txt; Write json c3])
  = [ogg; json].
Proof.
  intros Hot Hjo. unfold leftover. simpl. unfold touch at 1. simpl.
  rewrite fold_left_app, leftover_steps. simpl. unfold touch. simpl.
  rewrite Hot. simpl. rewrite String.eqb_refl, Hot. simpl. rewrite Hjo. reflexivity.
Qed.

Lemma sprite_file_differ (a b : string) : a <> b -> (sprite_file a =? sprite_file b)%string = false.
Proof.
  intros Hab. apply String.eqb_neq. unfold sprite_file. intros E.
  apply (append_inj_l "assets/audio/") in E. apply append_inj_l in E. contradiction.
Qed.

(** The call on two clips or more, when every clip has a duration. *)
Lemma sprite_run_probed (paths : list string) (durs : list float) :
  (2 <= List.length paths)%nat ->
  Forall2 (fun p d => probed p = Some d) paths durs ->
  let txt := sprite_file ".txt" in
  let ogg := sprite_file ".ogg" in
  let argv := AudioSpriteTool.ffmpeg_argv txt ogg in
  AudioSpriteTool._run paths []
  = match subprocess argv with
    | NonZero out =>
        (Raise (CalledProcessError out),
         (Write txt (Text "") :: flat_map (probe_steps txt) paths ++ [Run argv])%list)
    | Exit0 _ =>
        (Ok ogg,
         (Write txt (Text "") :: flat_map (probe_steps txt) paths ++
          [Run argv; Write ogg (SpriteAudio paths); Unlink txt;
           Write (sprite_file ".json")
             (Json (fst (fill (clips_of paths durs) [] fzero)))])%list)
    end.
Proof.
  intros Hlen Hd. cbv zeta.
  rewrite (sprite_run_eq paths Hlen), (for_paths_succeeds _ _ _ _ _ _ Hd). cbv zeta.
  destruct (subprocess (AudioSpriteTool.ffmpeg_argv (sprite_file ".txt") (sprite_file ".ogg")));
    simpl; rewrite <- ?app_assoc; reflexivity.
Qed.

(** X9.  On success the concat list holds one line [file '<clip>'] per
    clip, in argument order, and the processes run are one probe per
    clip, in that order, and then the mux on the concat list. *)
Theorem sprite_concat_list (paths : list string) out tr :
  AudioSpriteTool._run paths [] = (Ok out, tr) ->
  appended (sprite_file ".txt") tr = map concat_line paths /\
  runs tr = (map AudioSpriteTool.ffprobe_argv paths
             ++ [AudioSpriteTool.ffmpeg_argv (sprite_file ".txt") (sprite_file ".ogg")])%list.
Proof.
  intros Hrun.
  assert (Hlen : (2 <= List.length paths)%nat).
  { destruct (le_lt_dec 2 (List.length paths)) as [? | Hlt]; [assumption |].
    rewrite (sprite_too_few paths Hlt) in Hrun. discriminate Hrun. }
  destruct (probes_split paths) as [(durs & Hd) | (before & p & after & dbefore & -> & Hb & Hp)].
  - rewrite (sprite_run_probed paths durs Hlen Hd) in Hrun. cbv zeta in Hrun.
    destruct (subprocess _); [| discriminate Hrun].
    injection Hrun as _ <-.
    split.
    + apply appended_sprite_trace.
    + change (Write (sprite_file ".txt") (Text "") :: ?l)
        with ([Write (sprite_file ".txt") (@Text H "")] ++ l)%list.
      rewrite !runs_app, runs_steps. reflexivity.
  - rewrite (sprite_run_eq _ Hlen) in Hrun.
    destruct (for_paths_fails (sprite_file ".txt") p after before dbefore [] fzero
                [Write (sprite_file ".txt") (Text "")] Hb Hp) as [e E].
    rewrite E in Hrun. discriminate Hrun.
Qed.

(** X10.  The probes stop at the first clip without a duration: the call
    raises a [RuntimeError] that names this clip, the clips after it
    are neither listed nor probed, and the mux is not run. *)
Theorem sprite_stops_at_first_failing_probe (before after : list string) (p : string)
    (dbefore : list float) :
  (2 <= List.length (before ++ p :: after))%nat ->
  Forall2 (fun p d => probed p = Some d) before dbefore ->
  probed p = None ->
  exists e tr,
    AudioSpriteTool._run (before ++ p :: after) []
    = (Raise (RuntimeError ("ffprobe failed for " ++ p ++ ": ") e), tr) /\
    runs tr = map AudioSpriteTool.ffprobe_argv (before ++ [p]) /\
    appended (sprite_file ".txt") tr = map concat_line (before ++ [p]).
Proof.
  intros Hlen Hb Hp.
  destruct (for_paths_fails (sprite_file ".txt") p after before dbefore [] fzero
              [Write (sprite_file ".txt") (Text "")] Hb Hp) as [e E].
  exists e. eexists. rewrite (sprite_run_eq _ Hlen), E.
  split; [reflexivity |]. split.
  - rewrite runs_app, runs_steps. reflexivity.
  - rewrite appended_app, appended_steps. reflexivity.
Qed.

(** X11.  What a call on two clips or more leaves on disk: the sprite and
    its cue map when it returns, the concat list having been removed;
    the concat list, and no cue map, when it raises. *)
Theorem sprite_leftover (paths : list string) r tr :
  (2 <= List.length paths)%nat ->
  AudioSpriteTool._run paths [] = (r, tr) ->
  match r with
  | Ok _ => leftover tr = [sprite_file ".ogg"; sprite_file ".json"]
  | Raise _ => In (sprite_file ".txt") (leftover tr) /\
               ~ In (sprite_file ".json") (leftover tr)
  end.
Proof.
  intros Hlen Hrun.
  assert (Hnot : ~ In (sprite_file ".json") [sprite_file ".txt"]).
  { intros [E | []]. pose proof (sprite_file_differ ".txt" ".json") as Hd.
    rewrite E, String.eqb_refl in Hd. discriminate Hd. discriminate. }
  destruct (probes_split paths) as [(durs & Hd) | (before & p & after & dbefore & -> & Hb & Hp)].
  - rewrite (sprite_run_probed paths durs Hlen Hd) in Hrun. cbv zeta in Hrun.
    destruct (subprocess _); injection Hrun as <- <-.
    + apply leftover_succeeded; apply sprite_file_differ; discriminate.
    + rewrite leftover_failed by (constructor; [eexists; reflexivity | constructor]).
      split; [now left | exact Hnot].
  - destruct (for_paths_fails (sprite_file ".txt") p after before dbefore [] fzero
                [Write (sprite_file ".txt") (Text "")] Hb Hp) as [e E].
    rewrite (sprite_run_eq _ Hlen), E in Hrun. injection Hrun as <- <-.
    pose proof (leftover_failed (sprite_file ".txt") (before ++ [p])%list (Text "") []
                  (Forall_nil _)) as Hl.
    rewrite app_nil_r in Hl. change ([?x] ++ ?l)%list with (x :: l). rewrite Hl.
    split; [now left | exact Hnot].
Qed.

End SpriteMore.

(** ** Beyond the claims: offsets, git and the task factory *)

Section OffsetsMore.
Context `{World}.
Import Py pathlib StringFacts PathFacts DictFacts.






End OffsetsMore.

Section GitMore.
Context `{World}.
Import Py.

(** X13.  The commands run are [git add .], then [git commit], then
    [git push], each only when the one before it exited with status
    zero; nothing else runs and no file is written. *)
Theorem git_commands_in_order (commit_message : string) :
  let add := ["git"; "add"; "."] in
  let commit := ["git"; "commit"; "-m"; commit_message] in
  let push := ["git"; "push"] in
  let tr := snd (GitOpsTool._run commit_message []) in
  exists n, (1 <= n <= 3)%nat /\
    tr = map Run (firstn n [add; commit; push]) /\
    ((2 <= n)%nat <-> exists out, subprocess add = Exit0 out) /\
    (n = 3%nat <-> (exists out, subprocess add = Exit0 out) /\
                   (exists out, subprocess commit = Exit0 out)).
Proof.
  cbv zeta. rewrite git_run. cbv zeta.
  destruct (subprocess ["git"; "add"; "."]) as [a | a] eqn:Ha.
  - destruct (subprocess ["git"; "commit"; "-m"; commit_message]) as [c | c] eqn:Hc.
    + exists 3%nat. split; [lia |].
      split; [destruct (subprocess ["git"; "push"]); reflexivity |].
      split; split; eauto; lia.
    + exists 2%nat. split; [lia |]. split; [reflexivity |].
      split; split; eauto; try lia.
      intros (_ & out & E). discriminate E.
  - exists 1%nat. split; [lia |]. split; [reflexivity |].
    split; split; try lia.
    + intros (out & E). discriminate E.
    + intros ((out & E) & _). discriminate E.
Qed.

End GitMore.

(** ** Beyond the claims: the task factory *)

Section TasksMore.
Import tasks.

(** X14.  A task made by the factory has an expected output that is not
    empty: the one supplied when it is not empty, and the default
    otherwise, also for a supplied empty string; description and agent
    are the ones given. *)
Theorem T_expected_output {Agent : Type} (desc : string) (a : Agent) (output : option string) :
  expected_output (T desc a output) <> "" /\
  (forall s, output = Some s -> s <> "" -> expected_output (T desc a output) = s) /\
  (output = None \/ output = Some "" -> expected_output (T desc a output) = default_output) /\
  description (T desc a output) = desc /\ agent (T desc a output) = a.
Proof.
  unfold T; simpl. repeat split.
  - destruct output as [[|c s] |]; discriminate.
  - intros s -> Hs. destruct s; [congruence | reflexivity].
  - intros [-> | ->]; reflexivity.
Qed.

End TasksMore.

(** ** Beyond the claims: the tools at work *)

Lemma compress_beside_source_witness :
  exists out,
    fst (@ImageCompressTool._run Demo.darkroom "shots/hero.final.png" "webp" 200 []) = Ok out /\
    parent (parse out) = parse "shots" /\ name (parse out) = "hero.final.webp".
Proof.
  destruct (@compress_beside_source Demo.darkroom "shots/hero.final.png" "webp" 200 tt)
    as (out & tr & Hrun & Hparent & Hname).
  - right. reflexivity.
  - reflexivity.
  - exists out. rewrite Hrun. auto.
Defined.

Lemma compress_failure_writes_nothing_witness :
  snd (@ImageCompressTool._run Demo.darkroom "" "png" 200 []) = [].
Proof.
  destruct (@ImageCompressTool._run Demo.darkroom "" "png" 200 []) as [[out | e] tr] eqn:E.
  - discriminate E.
  - exact (proj1 (@compress_failure_writes_nothing Demo.darkroom "" "png" 200 e tr E)).
Defined.

Lemma compress_budget_monotone_witness :
  (List.length (@encodings Demo.darkroom tt "AVIF" 300)
   <= List.length (@encodings Demo.darkroom tt "AVIF" 100))%nat.
Proof.
  destruct (@compress_budget_monotone Demo.darkroom "foo/bar.png" "avif" 100 300 tt)
    as (out & extra & _ & _ & Hlen).
  - left. reflexivity.
  - reflexivity.
  - lia.
  - exact Hlen.
Defined.

Lemma compress_overwrites_source_witness :
  fst (@ImageCompressTool._run Demo.darkroom "foo/bar.avif" "AVIF" 200 []) = Ok "foo/bar.avif".
Proof.
  rewrite (@compress_overwrites_source Demo.darkroom "foo/bar.avif" "AVIF" 200 tt).
  - reflexivity.
  - left. reflexivity.
  - reflexivity.
  - reflexivity.
Defined.

Lemma responsive_outputs_distinct_witness :
  NoDup ["assets/images/hero_169.png"; "assets/images/hero_32.png";
         "assets/images/hero_11.png"].
Proof.
  destruct (@ImageResponsiveTool._run Demo.studio "pics/hero.png" 1024 []) as [r tr] eqn:E.
  assert (F : r = Ok ["assets/images/hero_169.png"; "assets/images/hero_32.png";
                      "assets/images/hero_11.png"])
    by (apply (f_equal fst) in E; simpl in E; rewrite <- E; vm_compute; reflexivity).
  subst r.
  exact (proj1 (@responsive_outputs_distinct Demo.studio "pics/hero.png" 1024 _ _ E)).
Defined.

Lemma responsive_same_stem_witness :
  fst (@ImageResponsiveTool._run Demo.studio "a/hero.png" 1024 [])
  = fst (@ImageResponsiveTool._run Demo.studio "b/hero.jpg" 640 []).
Proof.
  destruct (@ImageResponsiveTool._run Demo.studio "a/hero.png" 1024 []) as [r tr] eqn:E.
  destruct (@ImageResponsiveTool._run Demo.studio "b/hero.jpg" 640 []) as [r' tr'] eqn:E'.
  assert (F : exists out, r = Ok out)
    by (apply (f_equal fst) in E; simpl in E; rewrite <- E; vm_compute; eauto).
  assert (F' : exists out, r' = Ok out)
    by (apply (f_equal fst) in E'; simpl in E'; rewrite <- E'; vm_compute; eauto).
  destruct F as [out ->]. destruct F' as [out' ->]. simpl. f_equal.
  exact (proj1 (@responsive_same_stem Demo.studio "a/hero.png" "b/hero.jpg" 1024 640
                  out tr out' tr' eq_refl E E')).
Defined.

Lemma compress_of_variant_witness :
  exists out,
    fst (@ImageCompressTool._run Demo.darkroom
           (@variant_name "pics/hero.png" "32") "AVIF" 200 []) = Ok out /\
    in_dir IMG_DIR out /\ name (parse out) = "hero_32.avif".
Proof.
  destruct (@compress_of_variant Demo.darkroom "pics/hero.png" "32" "AVIF" 200 tt)
    as (out & tr & Hrun & Hdir & Hname & _).
  - simpl. auto.
  - left. reflexivity.
  - reflexivity.
  - exists out. rewrite Hrun. auto.
Defined.

Lemma normalized_clip_keeps_stem_witness :
  exists ogg,
    fst (@AudioNormalizeTool._run Demo.studio "in/beep.v2.wav" (-14) []) = Ok ogg /\
    stem (parse ogg) = "beep.v2".
Proof.
  destruct (@normalized_clip_keeps_stem Demo.studio "in/beep.v2.wav" (-14) (-20))
    as (ogg & tr & Hrun & Hstem).
  - reflexivity.
  - discriminate.
  - exists ogg. rewrite Hrun. auto.
Defined.

Lemma sprite_concat_list_witness :
  runs (snd (@AudioSpriteTool._run Demo.booth Demo.trio []))
  = (map AudioSpriteTool.ffprobe_argv Demo.trio
     ++ [AudioSpriteTool.ffmpeg_argv (@sprite_file Demo.booth ".txt")
           (@sprite_file Demo.booth ".ogg")])%list.
Proof.
  destruct (@AudioSpriteTool._run Demo.booth Demo.trio []) as [r tr] eqn:E.
  assert (F : r = Ok Demo.sprite_ogg)
    by (apply (f_equal fst) in E; simpl in E; rewrite <- E; vm_compute; reflexivity).
  subst r.
  exact (proj2 (@sprite_concat_list Demo.booth Demo.trio _ _ E)).
Defined.

Lemma sprite_stops_at_first_failing_probe_witness :
  exists e tr,
    @AudioSpriteTool._run Demo.booth ["a/x.wav"; "q.wav"; "b/y.wav"] []
    = (Raise (RuntimeError "ffprobe failed for q.wav: " e), tr) /\
    runs tr = map AudioSpriteTool.ffprobe_argv ["a/x.wav"; "q.wav"].
Proof.
  destruct (@sprite_stops_at_first_failing_probe Demo.booth ["a/x.wav"] ["b/y.wav"] "q.wav" [1])
    as (e & tr & Hrun & Hruns & _).
  - simpl. lia.
  - constructor; [reflexivity | constructor].
  - reflexivity.
  - exists e, tr. auto.
Defined.

Lemma sprite_leftover_witness :
  leftover (snd (@AudioSpriteTool._run Demo.booth Demo.trio []))
  = [Demo.sprite_ogg; Demo.sprite_json].
Proof.
  destruct (@AudioSpriteTool._run Demo.booth Demo.trio []) as [r tr] eqn:E.
  assert (F : r = Ok Demo.sprite_ogg)
    by (apply (f_equal fst) in E; simpl in E; rewrite <- E; vm_compute; reflexivity).
  subst r.
  pose proof (@sprite_leftover Demo.booth Demo.trio _ _ ltac:(simpl; lia) E) as Hl.
  simpl in Hl. exact Hl.
Defined.


(** ** The cue map and the failure report at work *)








(** C4.  Repository Sync outside a git repository: [git add .] exits
    with status 128 and prints its message on the standard error,
    which [check_output] does not capture.  Whatever that message is,
    the call returns the bare string [Git error: ], without it. *)
Theorem git_sync_drops_failure_message (message commit_message : string) :
  Shell.stderr (Shell.not_a_repository message ["git"; "add"; "."]) = message /\
  @GitOpsTool._run (Shell.outside_repository message) commit_message []
  = (Ok "Git error: ", [Run ["git"; "add"; "."]]).
Proof.
  split; [reflexivity |].
  rewrite git_run. reflexivity.
Qed.
